(** * c2e: codec documents, guard and emitter parsing, the rule chain,
      the encoder registry and the template-driven formatter.

    A shallow embedding of [c2e_codec.py] and [codec2ast.py].

    - A Python [str] is the list of its code points; a [dict] is an
      association list in insertion order; a value of [json.loads] is a
      [json].
    - An exception is the [Raise] of an error monad whose errors are the
      exception classes the code can raise.  [assert] statements are
      executed (the interpreter runs without [-O]).
    - The regular expressions of [Codec] are syntax trees run by a
      backtracking matcher that lists the matches in the order [re] tries
      them; [re.match] takes the first.
    - The constructor's loop over the rules, which moves a reference down
      the tree it is building, is a fold over a cursor into that tree.
    - What belongs to the interpreter and not to the repository is a
      parameter: the character-name table of [unicodedata], the stack depth
      left to [parseEmitter], and [str.format]. *)

From Stdlib Require Import List NArith ZArith Bool Ascii PeanoNat Lia.
From Stdlib Require String DecimalString.
Import ListNotations String.StringSyntax.

Local Open Scope string_scope.
Local Open Scope N_scope.
Local Open Scope list_scope.

Set Implicit Arguments.
Set Warnings "-register-all".

(** ** Python values *)

(** A Python [str]: its code points, each below [0x110000]. *)
Definition pystr := list N.

(** An ASCII literal as a Python string. *)
Definition py (s : String.string) : pystr :=
  map N_of_ascii (String.list_ascii_of_string s).

Definition pystr_eqb (a b : pystr) : bool :=
  if list_eq_dec N.eq_dec a b then true else false.

(** The exception classes the embedded code can raise. *)
Inductive exn :=
| KeyError | ValueError | AttributeError | TypeError
| AssertionError | RecursionError | IndexError.

Inductive result (A : Type) :=
| Ok (a : A)
| Raise (e : exn).
Arguments Ok {A} a.
Arguments Raise {A} e.

Definition bind {A B} (m : result A) (k : A -> result B) : result B :=
  match m with
  | Ok a => k a
  | Raise e => Raise e
  end.

Notation "x <- m ;; k" := (bind m (fun x => k))
  (at level 61, m at next level, right associativity).
Notation "' p <- m ;; k" := (bind m (fun x => let p := x in k))
  (at level 61, p pattern, m at next level, right associativity).

(** Left-to-right evaluation of a list of computations, as in a list
    comprehension: the first exception ends it. *)
Section MapM.
Context {A B : Type} (f : A -> result B).

Fixpoint mapM (l : list A) : result (list B) :=
  match l with
  | [] => Ok []
  | x :: xs => y <- f x ;; ys <- mapM xs ;; Ok (y :: ys)
  end.
End MapM.

(** What [json.loads] produces ([float] is left out: no code path below
    looks inside a number). *)
Inductive json :=
| JNull
| JBool (b : bool)
| JNum (n : Z)
| JStr (s : pystr)
| JList (l : list json)
| JDict (d : list (pystr * json)).

(** A [dict] with string keys, in insertion order; keys are distinct. *)
Definition pydict (V : Type) := list (pystr * V).

Fixpoint dict_get {V} (d : pydict V) (k : pystr) : option V :=
  match d with
  | [] => None
  | (k', v) :: d' => if pystr_eqb k k' then Some v else dict_get d' k
  end.

Definition dict_mem {V} (d : pydict V) (k : pystr) : bool :=
  match dict_get d k with Some _ => true | None => false end.

Definition dict_keys {V} (d : pydict V) : list pystr := map fst d.

(** [d[k] = v]: an existing key keeps its place. *)
Fixpoint dict_set {V} (d : pydict V) (k : pystr) (v : V) : pydict V :=
  match d with
  | [] => [(k, v)]
  | (k', v') :: d' =>
      if pystr_eqb k k' then (k, v) :: d' else (k', v') :: dict_set d' k v
  end.

(** [x in names] for a list of strings: only a [str] equals a [str]. *)
Definition json_in_strs (x : json) (names : list pystr) : bool :=
  match x with
  | JStr s => existsb (pystr_eqb s) names
  | _ => false
  end.

(** [for x in v]: a list gives its elements, a string its characters, a
    dict its keys; the rest is not iterable. *)
Definition py_iter (v : json) : result (list json) :=
  match v with
  | JList l => Ok l
  | JStr s => Ok (map (fun c => JStr [c]) s)
  | JDict d => Ok (map JStr (dict_keys d))
  | _ => Raise TypeError
  end.

(** Truth value of an object in [if v:]. *)
Definition truthy (v : json) : bool :=
  match v with
  | JNull => false
  | JBool b => b
  | JNum n => negb (Z.eqb n 0)
  | JStr s => match s with [] => false | _ => true end
  | JList l => match l with [] => false | _ => true end
  | JDict d => match d with [] => false | _ => true end
  end.

(** [chr(i)]. *)
Definition chr (i : N) : result N :=
  if i <? 0x110000 then Ok i else Raise ValueError.

(** Value of one hexadecimal digit. *)
Definition hexval (c : N) : N :=
  if (48 <=? c) && (c <=? 57) then c - 48
  else if (97 <=? c) && (c <=? 102) then c - 87
  else if (65 <=? c) && (c <=? 70) then c - 55
  else 0.

(** [int(s, 16)] on a string of hexadecimal digits. *)
Definition int16 (s : pystr) : N :=
  fold_left (fun acc c => 16 * acc + hexval c) s 0.

(** ** Regular expressions ([re]) *)

Module re.

(** The pattern constructs the codec uses. *)
Inductive regex :=
| Lit (c : N)                      (* an ordinary or escaped character *)
| Dot                              (* [.] *)
| Class (ranges : list (N * N))    (* [[lo-hi...]] *)
| Cat (r1 r2 : regex)
| Alt (r1 r2 : regex)              (* [r1|r2] *)
| Group (i : nat) (r : regex)      (* capturing group number [i] *)
| Bol                              (* [^] *)
| Eol                              (* [$] *)
| Eps.                             (* the empty pattern *)

(** [r{n}] *)
Fixpoint Rep (n : nat) (r : regex) : regex :=
  match n with
  | O => Eps
  | S O => r
  | S n' => Cat r (Rep n' r)
  end.

Record mstate := MState {
  pos : nat;                        (* characters consumed so far *)
  rest : pystr;                     (* the text still to match *)
  groups : list (nat * pystr)       (* the groups closed so far *)
}.

Definition advance (st : mstate) (xs : pystr) : mstate :=
  MState (S (pos st)) xs (groups st).

Definition in_class (ranges : list (N * N)) (x : N) : bool :=
  existsb (fun r => (fst r <=? x) && (x <=? snd r)) ranges.

(** All the ways [r] matches at [st], in the order a backtracking
    matcher tries them: the left alternative first.  [dotall] is the
    [re.DOTALL] flag. *)
Fixpoint run (dotall : bool) (r : regex) (st : mstate) : list mstate :=
  match r with
  | Lit c =>
      match rest st with
      | x :: xs => if x =? c then [advance st xs] else []
      | [] => []
      end
  | Dot =>
      match rest st with
      | x :: xs => if dotall || negb (x =? 10) then [advance st xs] else []
      | [] => []
      end
  | Class ranges =>
      match rest st with
      | x :: xs => if in_class ranges x then [advance st xs] else []
      | [] => []
      end
  | Cat r1 r2 => flat_map (run dotall r2) (run dotall r1 st)
  | Alt r1 r2 => run dotall r1 st ++ run dotall r2 st
  | Group i r1 =>
      map (fun st' =>
             MState (pos st') (rest st')
                    ((i, firstn (pos st' - pos st) (rest st)) :: groups st'))
          (run dotall r1 st)
  | Bol => if Nat.eqb (pos st) 0 then [st] else []
  | Eol =>
      match rest st with
      | [] => [st]
      | [x] => if x =? 10 then [st] else []   (* before a final newline *)
      | _ => []
      end
  | Eps => [st]
  end.

(** A match object: its groups. *)
Definition matchobj := list (nat * pystr).

(** [re.match(pattern, text, flags)]: the first way the pattern matches
    at the start of the text. *)
Definition match_ (dotall : bool) (pattern : regex) (text : pystr)
  : option matchobj :=
  match run dotall pattern (MState 0 text []) with
  | [] => None
  | st :: _ => Some (groups st)
  end.

(** [m.group(i)] for a group that took part in the match. *)
Fixpoint group (m : matchobj) (i : nat) : pystr :=
  match m with
  | [] => []
  | (j, s) :: m' => if Nat.eqb i j then s else group m' i
  end.

End re.

(** ** The syntax tree ([codec2ast.py]) *)

Module OPS.
(** [BinOp.OPS]; [land] is the logical and, [lor] the logical or. *)
Inductive t := land | lor | eq | lt | gt | lte | gte.

(** [op.name] *)
Definition name (op : t) : pystr :=
  match op with
  | land => py "land" | lor => py "lor" | eq => py "eq"
  | lt => py "lt" | gt => py "gt" | lte => py "lte" | gte => py "gte"
  end.
End OPS.

(** The node classes.  [Codepoint] holds the ordinal of its one-character
    string, [Builtin] is [Codec.Builtin], the only concrete subclass of
    [BuiltinEmitter]. *)
Inductive AstNode :=
| Codepoint (codepoint : N)
| Candidate
| BinOp (operation : OPS.t) (operand1 operand2 : AstNode)
| Bool (value : bool)
| Nop
| Builtin (builtin : pystr)
| ConstantEmitter (string : pystr)
| EmitterList (emitters : list AstNode)
| If (condition iftrue iffalse : AstNode).

(** [isinstance(n, Guard)] *)
Definition is_Guard (n : AstNode) : bool :=
  match n with
  | BinOp _ _ _ | Bool _ => true
  | _ => false
  end.

(** [isinstance(n, Emitter)] *)
Definition is_Emitter (n : AstNode) : bool :=
  match n with
  | Nop | Builtin _ | ConstantEmitter _ | EmitterList _ => true
  | _ => false
  end.

(** [node.__class__.__name__] *)
Definition class_name (n : AstNode) : pystr :=
  match n with
  | Codepoint _ => py "Codepoint"
  | Candidate => py "Candidate"
  | BinOp _ _ _ => py "BinOp"
  | Bool _ => py "Bool"
  | Nop => py "Nop"
  | Builtin _ => py "Builtin"
  | ConstantEmitter _ => py "ConstantEmitter"
  | EmitterList _ => py "EmitterList"
  | If _ _ _ => py "If"
  end.

(** [node.children] *)
Definition children (n : AstNode) : list AstNode :=
  match n with
  | BinOp _ a b => [a; b]
  | EmitterList l => l
  | If c t f => [c; t; f]
  | _ => []
  end.

Section Unicodedata.

(** [unicodedata.lookup]: the character-name table of the interpreter;
    [None] is its [KeyError].  Named sequences, which stand for more than
    one character, are left out. *)
Variable unicodedata_lookup : pystr -> option N.

(** [Codepoint(cp)] for a string [cp] (the codec never passes an
    [int]): a one-character string is kept, a longer one is looked up as
    a character name. *)
Definition Codepoint_init (cp : pystr) : result AstNode :=
  match cp with
  | [c] => Ok (Codepoint c)
  | _ =>
      match unicodedata_lookup cp with
      | Some c => Ok (Codepoint c)
      | None => Raise KeyError
      end
  end.

End Unicodedata.

(** The [EmitterList] constructor: every element must be an [Emitter]. *)
Definition EmitterList_init (emitters : list AstNode) : result AstNode :=
  if forallb is_Emitter emitters then Ok (EmitterList emitters)
  else Raise AttributeError.

(** The [condition] setter of [If]; [None] is not a [Guard]. *)
Definition If_set_condition (cond : option AstNode) : result AstNode :=
  match cond with
  | Some c => if is_Guard c then Ok c else Raise AttributeError
  | None => Raise AttributeError
  end.

(** [If()]: the default arguments. *)
Definition If_default : AstNode * AstNode * AstNode := (Bool false, Nop, Nop).

(** ** Codecs ([c2e_codec.py]) *)

(** [a <= b] on strings: by code point, left to right. *)
Fixpoint pystr_leb (a b : pystr) : bool :=
  match a, b with
  | [], _ => true
  | _ :: _, [] => false
  | x :: a', y :: b' =>
      if x <? y then true else if y <? x then false else pystr_leb a' b'
  end.

(** [a == b] on the values of a document. *)
Fixpoint py_eq (a b : json) {struct a} : bool :=
  match a, b with
  | JNull, JNull => true
  | JBool x, JBool y => Bool.eqb x y
  | JBool x, JNum n | JNum n, JBool x => Z.eqb n (if x then 1 else 0)
  | JNum n, JNum m => Z.eqb n m
  | JStr s, JStr t => pystr_eqb s t
  | JList l, JList m =>
      (fix all2 (l : list json) (m : list json) : bool :=
         match l, m with
         | [], [] => true
         | x :: l', y :: m' => py_eq x y && all2 l' m'
         | _, _ => false
         end) l m
  | JDict d, JDict e =>
      Nat.eqb (length d) (length e) &&
      (fix sub (d : list (pystr * json)) : bool :=
         match d with
         | [] => true
         | (k, v) :: d' =>
             match dict_get e k with
             | Some w => py_eq v w
             | None => false
             end && sub d'
         end) d
  | _, _ => false
  end.

(** A codec document: the top-level object of a [.c2e] file. *)
Definition document := pydict json.

Definition _builtin_emitters : list pystr :=
  [py "DEC"; py "HEX"; py "NOP"; py "IDENTITY"].

Definition _keywords : list pystr :=
  [py "TARGET"; py "RULES"; py "DEFAULT-EMITTER"].

(** [[0-9a-fA-F]] *)
Definition hexdigit : re.regex := re.Class [(48, 57); (97, 102); (65, 70)].

(** [(?:u|U)] *)
Definition u_or_U : re.regex := re.Alt (re.Lit 117) (re.Lit 85).

(** [^.$] *)
Definition _single_char_regex : re.regex :=
  re.Cat re.Bol (re.Cat re.Dot re.Eol).

(** [^(?:u|U)\+([0-9a-fA-F]{6}|[0-9a-fA-F]{4})$] *)
Definition _unicode_form_regex : re.regex :=
  re.Cat re.Bol
    (re.Cat u_or_U
       (re.Cat (re.Lit 43)
          (re.Cat (re.Group 1 (re.Alt (re.Rep 6 hexdigit) (re.Rep 4 hexdigit)))
                  re.Eol))).

(** [(?:u|U)\+(?:[0-9a-fA-F]{6}|[0-9a-fA-F]{4})|.], one side of a range *)
Definition range_side : re.regex :=
  re.Alt
    (re.Cat u_or_U
       (re.Cat (re.Lit 43) (re.Alt (re.Rep 6 hexdigit) (re.Rep 4 hexdigit))))
    re.Dot.

(** [\((side)-(side)\)]: no [^] and no [$]. *)
Definition _range_regex : re.regex :=
  re.Cat (re.Lit 40)
    (re.Cat (re.Group 1 range_side)
       (re.Cat (re.Lit 45)
          (re.Cat (re.Group 2 range_side) (re.Lit 41)))).

(** The object a [Codec] is once its constructor has returned. *)
Record Codec := {
  codec : document;
  _default_emitter : json;           (* [JNull] is [None] *)
  _rules : json;
  _target : json;
  _userdefined_emitters : list pystr;
  _root : AstNode
}.

(** [Codec.Builtin(name)]: the [builtin] setter with [isBuiltin]. *)
Definition Builtin_init (name : json) : result AstNode :=
  match name with
  | JStr s =>
      if existsb (pystr_eqb s) _builtin_emitters then Ok (Builtin s)
      else Raise ValueError
  | _ => Raise AttributeError
  end.

Section CodecSetter.

Variable unicodedata_lookup : pystr -> option N.

(** How many nested calls of [parseEmitter] the interpreter's stack
    still allows; past it Python raises [RecursionError]. *)
Variable recursion_depth : nat.

(** The document and the names of its user-defined emitters, which the
    nested functions of the setter read from [self]. *)
Variable self_codec : document.
Variable self_userdefined_emitters : list pystr.

(** One side of a range after the second [re.match]: an escape becomes
    its character. *)
Definition range_operand (side : pystr) : result pystr :=
  match re.match_ false _unicode_form_regex side with
  | Some rmu => c <- chr (int16 (re.group rmu 1)) ;; Ok [c]
  | None => Ok side
  end.

(** [parseGuard]; [Ok None] is falling off its end. *)
Definition parseGuard (guard : pystr) : result (option AstNode) :=
  match re.match_ true _single_char_regex guard with
  | Some _ =>
      cp <- Codepoint_init unicodedata_lookup guard ;;
      Ok (Some (BinOp OPS.eq Candidate cp))
  | None =>
  match re.match_ false _unicode_form_regex guard with
  | Some rm =>
      c <- chr (int16 (re.group rm 1)) ;;
      cp <- Codepoint_init unicodedata_lookup [c] ;;
      Ok (Some (BinOp OPS.eq Candidate cp))
  | None =>
  match re.match_ true _range_regex guard with
  | Some rm =>
      min <- range_operand (re.group rm 1) ;;
      max <- range_operand (re.group rm 2) ;;
      if pystr_leb min max then
        cpmin <- Codepoint_init unicodedata_lookup min ;;
        cond1 <- Ok (BinOp OPS.gte Candidate cpmin) ;;
        cpmax <- Codepoint_init unicodedata_lookup max ;;
        cond2 <- Ok (BinOp OPS.lte Candidate cpmax) ;;
        Ok (Some (BinOp OPS.land cond1 cond2))
      else Raise AssertionError
  | None => Ok None
  end end end.

(** [parseEmitter], with the depth of its recursion made explicit. *)
Fixpoint parseEmitter_at (depth : nat) (emitter : json) : result AstNode :=
  match depth with
  | O => Raise RecursionError
  | S depth' =>
      match emitter with
      | JDict d =>
          match dict_get d (py "emitter") with
          | Some em =>
              if json_in_strs em self_userdefined_emitters then
                match em with
                | JStr name =>
                    match dict_get self_codec name with
                    | Some definition =>
                        xs <- py_iter definition ;;
                        emitter_list <- mapM (parseEmitter_at depth') xs ;;
                        EmitterList_init emitter_list
                    | None => Raise KeyError
                    end
                | _ => Raise KeyError
                end
              else Builtin_init em
          | None => Raise ValueError
          end
      | JStr s => Ok (ConstantEmitter s)
      | _ => Raise ValueError
      end
  end.

Definition parseEmitter (emitter : json) : result AstNode :=
  parseEmitter_at recursion_depth emitter.

(** [parseRule]: the first item of the rule, [Ok None] for an empty
    mapping. *)
Definition parseRule (rule : json)
  : result (option (option AstNode * AstNode)) :=
  match rule with
  | JDict ((guard, emitter) :: _) =>
      g <- parseGuard guard ;;
      e <- parseEmitter emitter ;;
      Ok (Some (g, e))
  | JDict [] => Ok None
  | _ => Raise AttributeError
  end.

(** The tree under construction: the [If] nodes already left behind,
    innermost first, each with its condition and true-branch, and the
    fields of [current]. *)
Definition cursor : Type :=
  list (AstNode * AstNode) * (AstNode * AstNode * AstNode).

(** The tree [self._root] points to. *)
Definition plug (cur : cursor) : AstNode :=
  let '(above, (c, t, f)) := cur in
  fold_left (fun below frame => If (fst frame) (snd frame) below)
            above (If c t f).

(** One turn of [for rule in self._rules]. *)
Definition build_step (cur : cursor) (rule : json) : result cursor :=
  let '(above, (_, _, _)) := cur in
  r <- parseRule rule ;;
  match r with
  | None => Raise TypeError
  | Some (g, e) =>
      cond <- If_set_condition g ;;
      Ok ((cond, e) :: above, If_default)
  end.

Fixpoint build_loop (cur : cursor) (rules : list json) : result cursor :=
  match rules with
  | [] => Ok cur
  | rule :: rules' => cur' <- build_step cur rule ;; build_loop cur' rules'
  end.

(** The part of the setter under [# build AST]. *)
Definition build_ast (rules default_emitter : json) : result AstNode :=
  rs <- py_iter rules ;;
  '(above, (_, t, f)) <- build_loop ([], If_default) rs ;;
  if truthy default_emitter then
    d <- parseEmitter default_emitter ;;
    Ok (plug (above, (Bool true, d, f)))
  else Ok (plug (above, (Bool true, t, f))).

End CodecSetter.

(** Line 38: the document's [DEFAULT-EMITTER], [None] without one. *)
Definition default_emitter_of (doc : document) : json :=
  match dict_get doc (py "DEFAULT-EMITTER") with
  | Some v => v
  | None => JNull
  end.

(** Lines 42 to 44: the keys of the document that are no keyword, in the
    document's order. *)
Definition userdefined_emitters_of (doc : document) : list pystr :=
  filter (fun emitter => negb (existsb (pystr_eqb emitter) _keywords))
         (dict_keys doc).

(** [Codec(codec)]: the [codec] setter. *)
Definition Codec_init (unicodedata_lookup : pystr -> option N)
    (recursion_depth : nat) (doc : document) : result Codec :=
  let default_emitter := default_emitter_of doc in
  match dict_get doc (py "RULES") with
  | None => Raise KeyError
  | Some rules =>
  match dict_get doc (py "TARGET") with
  | None => Raise KeyError
  | Some target =>
      let userdefined := userdefined_emitters_of doc in
      root <- build_ast unicodedata_lookup recursion_depth doc userdefined
                        rules default_emitter ;;
      Ok {| codec := doc; _default_emitter := default_emitter;
            _rules := rules; _target := target;
            _userdefined_emitters := userdefined; _root := root |}
  end end.

(** [Codec.emitters] *)
Definition emitters (self : Codec) : list pystr :=
  _builtin_emitters ++ _userdefined_emitters self.

(** [Codec.target] *)
Definition target (self : Codec) : json := _target self.

(** [Codec.ast] *)
Definition ast (self : Codec) : AstNode := _root self.

(** ** The encoder *)

Record Encoder := {
  _codecs : list Codec;
  _targets : list json
}.

(** [Encoder()] *)
Definition Encoder_init : Encoder := {| _codecs := []; _targets := [] |}.

(** [Encoder.codecs] *)
Definition codecs (self : Encoder) : list Codec := _codecs self.

(** What [add] can be handed. *)
Inductive pyobj :=
| ACodec (c : Codec)
| AnythingElse.

(** [Encoder.add]: the encoder afterwards and the exception raised, if
    any. *)
Definition add (self : Encoder) (o : pyobj) : Encoder * result unit :=
  match o with
  | ACodec c =>
      if negb (existsb (py_eq (target c)) (_targets self)) then
        ({| _codecs := _codecs self ++ [c];
            _targets := _targets self ++ [target c] |}, Ok tt)
      else (self, Raise ValueError)
  | AnythingElse => (self, Raise AttributeError)
  end.

(** ** The formatter ([codec2ast.py]) *)

(** [walk]: the node, then its children's walks, in order. *)
Fixpoint walk (an : AstNode) : list AstNode :=
  match an with
  | BinOp _ a b => an :: walk a ++ walk b
  | EmitterList l => an :: flat_map walk l
  | If c t f => an :: walk c ++ walk t ++ walk f
  | _ => [an]
  end.

(** An argument of [str.format]. *)
Inductive fmtarg :=
| FStr (s : pystr)
| FInt (i : N).

Record AstFormatter := {
  _format_strings : pydict pystr;
  escape_func : N -> pystr
}.

(** [AstFormatter()]: no template, and a backslash escaped by doubling. *)
Definition AstFormatter_init : AstFormatter :=
  {| _format_strings := [];
     escape_func := fun c => if c =? 92 then [92; 92] else [c] |}.

(** [fmt.name = value] through [__setattr__], for a name other than
    [_out], [_format_strings] and [escape_func]. *)
Definition setattr (self : AstFormatter) (name value : pystr) : AstFormatter :=
  {| _format_strings := dict_set (_format_strings self) name value;
     escape_func := escape_func self |}.

(** The key [getFstring] looks up for a node. *)
Definition dispatch_key (node : AstNode) : pystr :=
  match node with
  | BinOp op _ _ => OPS.name op
  | Bool true => py "true"
  | Bool false => py "false"
  | _ => class_name node
  end.

(** [getFstring]: [dict.get] with [''] for a [BinOp] or a [Bool],
    subscription for every other node. *)
Definition getFstring (self : AstFormatter) (node : AstNode) : result pystr :=
  match node with
  | BinOp _ _ _ | Bool _ =>
      match dict_get (_format_strings self) (dispatch_key node) with
      | Some fs => Ok fs
      | None => Ok []
      end
  | _ =>
      match dict_get (_format_strings self) (class_name node) with
      | Some fs => Ok fs
      | None => Raise KeyError
      end
  end.

Section Formatter.

(** [template.format] with its positional and its keyword arguments, a
    method of the interpreter's [str]. *)
Variable str_format :
  pystr -> list fmtarg -> list (pystr * fmtarg) -> result pystr.

Variable self : AstFormatter.

(** [visit]: the [visit_*] method of the node's class. *)
Fixpoint visit (node : AstNode) : result pystr :=
  match node with
  | If condition iftrue iffalse =>
      format_string <- getFstring self node ;;
      c <- visit condition ;;
      t <- visit iftrue ;;
      f <- visit iffalse ;;
      str_format format_string []
        [(py "condition", FStr c); (py "iftrue", FStr t);
         (py "iffalse", FStr f)]
  | BinOp _ operand1 operand2 =>
      format_string <- getFstring self node ;;
      a <- visit operand1 ;;
      b <- visit operand2 ;;
      str_format format_string []
        [(py "operand1", FStr a); (py "operand2", FStr b)]
  | Candidate => getFstring self node
  | Codepoint cp =>
      format_string <- getFstring self node ;;
      str_format format_string [] [(py "codepoint", FInt cp)]
  | Bool _ => getFstring self node
  | Nop => getFstring self node
  | Builtin name =>
      format_string <- getFstring self node ;;
      str_format format_string [] [(py "builtin", FStr name)]
  | ConstantEmitter s =>
      format_string <- getFstring self node ;;
      str_format format_string
        [FStr (concat (map (escape_func self) s))] []
  | EmitterList emitters =>
      s <- mapM visit emitters ;;
      Ok (concat s)
  end.

(** [AstFormatter.format] *)
Definition format (node : AstNode) : result pystr := visit node.

End Formatter.

(** ** Specification-side definitions *)

(** The node classes whose template [getFstring] subscripts. *)
Definition subscripted (node : AstNode) : bool :=
  match node with
  | BinOp _ _ _ | Bool _ | EmitterList _ => false
  | _ => true
  end.

(** The names of the builtin emitters a tree refers to. *)
Definition used_builtins (root : AstNode) : list pystr :=
  flat_map (fun n => match n with Builtin b => [b] | _ => [] end) (walk root).

(** The right-leaning chain of section 4.3: one [If] per parsed rule, the
    next rule's [If] as false-branch, [last] at the end. *)
Fixpoint chain (rules : list (AstNode * AstNode)) (last : AstNode) : AstNode :=
  match rules with
  | [] => last
  | (g, e) :: rules' => If g e (chain rules' last)
  end.

(** Modelled from the spec: what a predicate node means for a candidate
    code point (section 3: [EQ], [LT], [GT], [LTE], [GTE] compare the
    candidate and a code point by ordinal, [AND] and [OR] combine
    predicates).  The repository only prints predicates; it never
    evaluates one. *)
Definition ordinal_of (candidate : N) (n : AstNode) : option N :=
  match n with
  | Candidate => Some candidate
  | Codepoint c => Some c
  | _ => None
  end.

Fixpoint holds (candidate : N) (n : AstNode) : option bool :=
  match n with
  | Bool b => Some b
  | BinOp op a b =>
      match op with
      | OPS.land =>
          match holds candidate a, holds candidate b with
          | Some x, Some y => Some (x && y)
          | _, _ => None
          end
      | OPS.lor =>
          match holds candidate a, holds candidate b with
          | Some x, Some y => Some (x || y)
          | _, _ => None
          end
      | _ =>
          match ordinal_of candidate a, ordinal_of candidate b with
          | Some x, Some y =>
              Some match op with
                   | OPS.eq => x =? y
                   | OPS.lt => x <? y
                   | OPS.gt => y <? x
                   | OPS.lte => x <=? y
                   | _ => y <=? x
                   end
          | _, _ => None
          end
      end
  | _ => None
  end.

(** A hexadecimal digit, as the class [[0-9a-fA-F]] has it. *)
Definition is_hex (d : N) : bool :=
  re.in_class [(48, 57); (97, 102); (65, 70)] d.

(** One side of a range as section 4.1 writes it: a literal character, or
    an escape [U+HHHH] or [U+HHHHHH] ([prefix] is the letter). *)
Inductive operand :=
| Literal (c : N)
| Escape (prefix : N) (digits : pystr).

Definition operand_text (o : operand) : pystr :=
  match o with
  | Literal c => [c]
  | Escape p ds => p :: 43 :: ds
  end.

(** The ordinal of the code point an operand denotes. *)
Definition operand_ord (o : operand) : N :=
  match o with
  | Literal c => c
  | Escape _ ds => int16 ds
  end.

(** An escape has the letter [u] or [U], four or six hexadecimal digits,
    and names a code point ([chr] accepts it). *)
Definition operand_ok (o : operand) : bool :=
  match o with
  | Literal _ => true
  | Escape p ds =>
      ((p =? 117) || (p =? 85)) &&
      (Nat.eqb (length ds) 4 || Nat.eqb (length ds) 6) &&
      forallb is_hex ds && (int16 ds <? 0x110000)
  end.

(** The text [(A-B)]. *)
Definition range_text (A B : operand) : pystr :=
  40 :: operand_text A ++ 45 :: operand_text B ++ [41].

(** [AND(GTE(Candidate, Codepoint(a)), LTE(Candidate, Codepoint(b)))] *)
Definition range_predicate (a b : N) : AstNode :=
  BinOp OPS.land (BinOp OPS.gte Candidate (Codepoint a))
                 (BinOp OPS.lte Candidate (Codepoint b)).

(** [EQ(Candidate, Codepoint(c))] *)
Definition eq_predicate (c : N) : AstNode :=
  BinOp OPS.eq Candidate (Codepoint c).

(** The digit character of a value below sixteen. *)
Definition hexchar (upper : bool) (d : N) : N :=
  if d <? 10 then 48 + d else (if upper then 55 else 87) + d.

(** [n] in hexadecimal, zero-padded to exactly [width] digits. *)
Fixpoint hex_digits (upper : bool) (width : nat) (n : N) : pystr :=
  match width with
  | O => []
  | S w => hex_digits upper w (n / 16) ++ [hexchar upper (n mod 16)]
  end.

(** The operand shapes, digit by digit. *)
Inductive shape : operand -> Prop :=
| shape_lit c : shape (Literal c)
| shape_4 p d1 d2 d3 d4 :
    p = 117 \/ p = 85 ->
    is_hex d1 = true -> is_hex d2 = true ->
    is_hex d3 = true -> is_hex d4 = true ->
    shape (Escape p [d1; d2; d3; d4])
| shape_6 p d1 d2 d3 d4 d5 d6 :
    p = 117 \/ p = 85 ->
    is_hex d1 = true -> is_hex d2 = true -> is_hex d3 = true ->
    is_hex d4 = true -> is_hex d5 = true -> is_hex d6 = true ->
    shape (Escape p [d1; d2; d3; d4; d5; d6]).

(** The rule [{guard: emitter}] of a document. *)
Definition rule_of (r : pystr * json) : json := JDict [r].

(** [{"emitter": name}] *)
Definition ref (name : pystr) : json := JDict [(py "emitter", JStr name)].

Definition result_map {A B} (f : A -> B) (m : result A) : result B :=
  x <- m ;; Ok (f x).

(** Section 4.3 on one rule: the parsed guard as condition, the parsed
    emitter as true-branch. *)
Definition parse_pair (unicodedata_lookup : pystr -> option N)
    (depth : nat) (doc : document) (rule : pystr * json)
  : result (AstNode * AstNode) :=
  g <- parseGuard unicodedata_lookup (fst rule) ;;
  e <- parseEmitter depth doc (userdefined_emitters_of doc) (snd rule) ;;
  cond <- If_set_condition g ;;
  Ok (cond, e).

(** The true-branch of the last [If]: the parsed default when the
    document has one that counts as true, [Nop] otherwise. *)
Definition final_emitter (depth : nat) (doc : document) : result AstNode :=
  if truthy (default_emitter_of doc) then
    parseEmitter depth doc (userdefined_emitters_of doc)
                 (default_emitter_of doc)
  else Ok Nop.

(** The states an encoder goes through: fresh, then any calls of [add]. *)
Inductive reachable : Encoder -> Prop :=
| reach_init : reachable Encoder_init
| reach_add e o : reachable e -> reachable (fst (add e o)).

(** What every reachable encoder satisfies: the targets are those of the
    codecs, in the same order, and no string names two of them. *)
Definition registry_ok (e : Encoder) : Prop :=
  _targets e = map target (_codecs e) /\
  forall name,
    (length (filter (py_eq (JStr name)) (_targets e)) <= 1)%nat.

(** The codecs of an encoder registered under the target [name]. *)
Definition codecs_for (name : pystr) (e : Encoder) : list Codec :=
  filter (fun c => py_eq (JStr name) (target c)) (codecs e).

(** A set of user-defined names that resolution never leaves: each is
    defined as a list with, somewhere in it, a reference to a name of the
    set.  With [consts_only], what precedes that reference is constant
    strings only. *)
Definition closed_cycle (consts_only : bool) (doc : document)
    (userdefined : list pystr) (names : list pystr) : Prop :=
  forall a, In a names ->
    In a userdefined /\
    exists before b after,
      dict_get doc a = Some (JList (before ++ ref b :: after)) /\
      (consts_only = true -> exists consts, before = map JStr consts) /\
      In b names.

(** One more [If] around the tree below it. *)
Definition frame (below : AstNode) (fr : AstNode * AstNode) : AstNode :=
  If (fst fr) (snd fr) below.

(** ** Instances of the interpreter's tables for closed examples *)

(** A few lines of the character-name table. *)
Definition unicodedata_excerpt (name : pystr) : option N :=
  dict_get [(py "SPACE", 32); (py "LATIN SMALL LETTER A", 97);
            (py "LATIN CAPITAL LETTER A", 65)] name.

(** How far [str.format] has numbered its positional fields. *)
Inductive numbering :=
| Unnumbered
| Automatic (next : nat)
| Manual.

Definition is_digit (c : N) : bool := (48 <=? c) && (c <=? 57).

Definition fmtarg_str (a : fmtarg) : pystr :=
  match a with
  | FStr s => s
  | FInt i => py (DecimalString.NilZero.string_of_uint (N.to_uint i))
  end.

(** The value of the replacement field [name]. *)
Definition field_value (args : list fmtarg) (kwargs : list (pystr * fmtarg))
    (name : pystr) (st : numbering) : result (pystr * numbering) :=
  match name with
  | [] =>
      match st with
      | Manual => Raise ValueError
      | Unnumbered =>
          match nth_error args 0 with
          | Some a => Ok (fmtarg_str a, Automatic 1)
          | None => Raise IndexError
          end
      | Automatic i =>
          match nth_error args i with
          | Some a => Ok (fmtarg_str a, Automatic (S i))
          | None => Raise IndexError
          end
      end
  | _ =>
      if forallb is_digit name then
        match st with
        | Automatic _ => Raise ValueError
        | _ =>
            match nth_error args
                    (N.to_nat (fold_left (fun acc c => 10 * acc + (c - 48))
                                         name 0)) with
            | Some a => Ok (fmtarg_str a, Manual)
            | None => Raise IndexError
            end
        end
      else
        match dict_get kwargs name with
        | Some a => Ok (fmtarg_str a, st)
        | None => Raise KeyError
        end
  end.

(** [str.format] on templates whose replacement fields are plain names or
    indices, with doubled braces for literal ones.  A field with a
    conversion, a format specification, an attribute or an index is outside
    this instance, which answers [ValueError] there. *)
Fixpoint format_fields_from (args : list fmtarg)
    (kwargs : list (pystr * fmtarg)) (template : pystr)
    (field : option pystr) (st : numbering)
  : result pystr :=
  match template with
  | [] =>
      match field with
      | None => Ok []
      | Some _ => Raise ValueError
      end
  | c :: template' =>
      match field with
      | Some name =>
          if c =? 125 then
            '(v, st') <- field_value args kwargs name st ;;
            out <- format_fields_from args kwargs template' None st' ;;
            Ok (v ++ out)
          else if existsb (N.eqb c) [123; 33; 58; 46; 91] then Raise ValueError
          else format_fields_from args kwargs template' (Some (name ++ [c])) st
      | None =>
          if c =? 123 then
            match template' with
            | 123 :: template'' =>
                out <- format_fields_from args kwargs template'' None st ;;
                Ok (123 :: out)
            | _ => format_fields_from args kwargs template' (Some []) st
            end
          else if c =? 125 then
            match template' with
            | 125 :: template'' =>
                out <- format_fields_from args kwargs template'' None st ;;
                Ok (125 :: out)
            | _ => Raise ValueError
            end
          else
            out <- format_fields_from args kwargs template' None st ;;
            Ok (c :: out)
      end
  end.

Definition format_fields (template : pystr) (args : list fmtarg)
    (kwargs : list (pystr * fmtarg)) : result pystr :=
  format_fields_from args kwargs template None Unnumbered.

(** ** Example documents and objects *)

(** [{"TARGET": "html", "RULES": [{"<": {"emitter": "HEX"}}, {"(a-z)": "x"}],
      "DEFAULT-EMITTER": {"emitter": "IDENTITY"}}] *)
Definition html_rules : list (pystr * json) :=
  [(py "<", ref (py "HEX")); (py "(a-z)", JStr (py "x"))].

Definition html_document : document :=
  [(py "TARGET", JStr (py "html"));
   (py "RULES", JList (map rule_of html_rules));
   (py "DEFAULT-EMITTER", ref (py "IDENTITY"))].

(** [{"TARGET": "t", "RULES": [], "DEFAULT-EMITTER": ""}]: a default is
    supplied, the empty string. *)
Definition empty_default_document : document :=
  [(py "TARGET", JStr (py "t")); (py "RULES", JList []);
   (py "DEFAULT-EMITTER", JStr [])].

(** [{"TARGET": "t", "RULES": [], "A": [{"emitter": "A"}]}] *)
Definition selfref_document : document :=
  [(py "TARGET", JStr (py "t")); (py "RULES", JList []);
   (py "A", JList [ref (py "A")])].

(** [{"TARGET": "t", "RULES": [], "A": [{"emitter": "B"}], "B": ["x"]}]:
    two user-defined emitters and no cycle. *)
Definition nested_document : document :=
  [(py "TARGET", JStr (py "t")); (py "RULES", JList []);
   (py "A", JList [ref (py "B")]); (py "B", JList [JStr (py "x")])].

(** [{"TARGET": "t", "RULES": [{"(a-b)x": "y"}]}] *)
Definition trailing_document : document :=
  [(py "TARGET", JStr (py "t"));
   (py "RULES", JList [rule_of (py "(a-b)x", JStr (py "y"))])].

(** [{"TARGET": "html", "RULES": []}] and the codec it compiles to. *)
Definition bare_document : document :=
  [(py "TARGET", JStr (py "html")); (py "RULES", JList [])].

Definition bare_codec : Codec :=
  {| codec := bare_document; _default_emitter := JNull;
     _rules := JList []; _target := JStr (py "html");
     _userdefined_emitters := []; _root := If (Bool true) Nop Nop |}.

(** A second codec for the target ["html"], with a default emitter. *)
Definition hex_document : document :=
  [(py "TARGET", JStr (py "html")); (py "RULES", JList []);
   (py "DEFAULT-EMITTER", ref (py "HEX"))].

Definition hex_codec : Codec :=
  {| codec := hex_document; _default_emitter := ref (py "HEX");
     _rules := JList []; _target := JStr (py "html");
     _userdefined_emitters := [];
     _root := If (Bool true) (Builtin (py "HEX")) Nop |}.

(** An encoder that holds [bare_codec]. *)
Definition html_encoder : Encoder := fst (add Encoder_init (ACodec bare_codec)).

(** Two formatters with the same templates, set in opposite orders. *)
Definition formatter_ab : AstFormatter :=
  setattr (setattr AstFormatter_init (py "Nop") (py "nop"))
          (py "If") (py "{condition}?{iftrue}:{iffalse}").

Definition formatter_ba : AstFormatter :=
  setattr (setattr AstFormatter_init
                   (py "If") (py "{condition}?{iftrue}:{iffalse}"))
          (py "Nop") (py "nop").

(** A formatter with a template for every class and for the operators
    the html document uses. *)
Definition sample_formatter : AstFormatter :=
  fold_left (fun fmt kv => setattr fmt (fst kv) (snd kv))
    [(py "If", py "if ({condition}) {{ {iftrue} }} else {{ {iffalse} }}");
     (py "land", py "{operand1} && {operand2}");
     (py "eq", py "{operand1} == {operand2}");
     (py "gte", py "{operand1} >= {operand2}");
     (py "lte", py "{operand1} <= {operand2}");
     (py "true", py "true");
     (py "Candidate", py "c");
     (py "Codepoint", py "{codepoint}");
     (py "Nop", py "");
     (py "Builtin", py "{builtin}(c)");
     (py "ConstantEmitter", py "emit('{}')")]
    AstFormatter_init.

(** ** Definitions for the further properties *)

(** The encoder after a run of calls of [add], whatever each one raised. *)
Definition add_all (e : Encoder) (os : list pyobj) : Encoder :=
  fold_left (fun e o => fst (add e o)) os e.

(** The target of the codec is a string, as a [.c2e] file has it. *)
Definition string_target (c : Codec) : Prop :=
  exists name, target c = JStr name.

(** What an emitter specification can parse to: a builtin with one of the
    four names, a constant, or a list of such trees. *)
Inductive emitter_tree : AstNode -> Prop :=
| et_builtin name :
    In name _builtin_emitters -> emitter_tree (Builtin name)
| et_constant s : emitter_tree (ConstantEmitter s)
| et_list l : Forall emitter_tree l -> emitter_tree (EmitterList l).

(** What a guard can parse to: the test of one code point, or of a range
    that is not empty. *)
Definition guard_tree (g : AstNode) : Prop :=
  (exists c, g = eq_predicate c) \/
  (exists a b, a <= b /\ g = range_predicate a b).

(** The tree of a codec with [n] rules. *)
Inductive rule_chain : nat -> AstNode -> Prop :=
| rc_last t :
    emitter_tree t \/ t = Nop -> rule_chain 0 (If (Bool true) t Nop)
| rc_rule n g e below :
    guard_tree g -> emitter_tree e -> rule_chain n below ->
    rule_chain (S n) (If g e below).

(** The text of one side of a range: one character, or an escape. *)
Definition side_text (s : pystr) : Prop :=
  exists o, shape o /\ s = operand_text o.

(** The texts the three patterns of [parseGuard] accept: one character or
    an escape, each with or without a final newline, and anything that
    starts with a range. *)
Definition guard_form (text : pystr) : Prop :=
  (exists c, text = [c] \/ text = [c; 10]) \/
  (exists p ds, shape (Escape p ds) /\
                (text = p :: 43 :: ds \/ text = p :: 43 :: ds ++ [10])) \/
  (exists A B tl, side_text A /\ side_text B /\
                  text = 40 :: A ++ 45 :: B ++ 41 :: tl).

(** The matcher went from [st] to [st'] over the text [s], closing no
    group. *)
Definition steps (st st' : re.mstate) (s : pystr) : Prop :=
  re.rest st = s ++ re.rest st' /\
  re.pos st' = (re.pos st + length s)%nat /\
  re.groups st' = re.groups st.

(** The names [__setattr__] stores as attributes of the formatter; every
    other name is a template's. *)
Definition own_attributes : list pystr :=
  [py "_out"; py "_format_strings"; py "escape_func"].

(** The argument [visit_ConstantEmitter] hands to the template, under the
    escape function a new formatter has. *)
Definition escaped (s : pystr) : pystr :=
  concat (map (escape_func AstFormatter_init) s).

(** Reading an escaped string back: a doubled backslash is one. *)
Fixpoint unescape (s : pystr) : pystr :=
  match s with
  | [] => []
  | c :: r =>
      if c =? 92 then
        match r with
        | d :: r' => if d =? 92 then 92 :: unescape r' else c :: unescape r
        | [] => [c]
        end
      else c :: unescape r
  end.

(** The node classes whose [visit_*] method calls [format], with the
    number of positional arguments and the keywords of the call. *)
Definition call_shape (node : AstNode) : option (nat * list pystr) :=
  match node with
  | If _ _ _ => Some (0%nat, [py "condition"; py "iftrue"; py "iffalse"])
  | BinOp _ _ _ => Some (0%nat, [py "operand1"; py "operand2"])
  | Codepoint _ => Some (0%nat, [py "codepoint"])
  | Builtin _ => Some (0%nat, [py "builtin"])
  | ConstantEmitter _ => Some (1%nat, [])
  | _ => None
  end.

(** The codecs the html document and the nested document compile to. *)
Definition html_codec : Codec :=
  {| codec := html_document; _default_emitter := ref (py "IDENTITY");
     _rules := JList (map rule_of html_rules); _target := JStr (py "html");
     _userdefined_emitters := [];
     _root :=
       If (eq_predicate 60) (Builtin (py "HEX"))
          (If (range_predicate 97 122) (ConstantEmitter (py "x"))
              (If (Bool true) (Builtin (py "IDENTITY")) Nop)) |}.

Definition nested_codec : Codec :=
  {| codec := nested_document; _default_emitter := JNull;
     _rules := JList []; _target := JStr (py "t");
     _userdefined_emitters := [py "A"; py "B"];
     _root := If (Bool true) Nop Nop |}.

(** A codec for the target ["css"]. *)
Definition css_codec : Codec :=
  {| codec := [(py "TARGET", JStr (py "css")); (py "RULES", JList [])];
     _default_emitter := JNull;
     _rules := JList []; _target := JStr (py "css");
     _userdefined_emitters := []; _root := If (Bool true) Nop Nop |}.

(** [{"TARGET": "t", "RULES": [], "HEX": ["0x"]}]: a user-defined emitter
    with the name of a builtin. *)
Definition shadow_document : document :=
  [(py "TARGET", JStr (py "t")); (py "RULES", JList []);
   (py "HEX", JList [JStr (py "0x")])].

(** * Properties *)

Unset Implicit Arguments.
#[local] Arguments re.in_class ranges !x /.

(** ** Strings, dictionaries and the error monad *)

Lemma pystr_eqb_eq (a b : pystr) : pystr_eqb a b = true <-> a = b.
Proof.
  unfold pystr_eqb. destruct (list_eq_dec N.eq_dec a b); split; congruence.
Qed.

Lemma pystr_eqb_refl (a : pystr) : pystr_eqb a a = true.
Proof. now apply pystr_eqb_eq. Qed.

Lemma py_eq_str (name : pystr) (v : json) :
  py_eq (JStr name) v = true <-> v = JStr name.
Proof.
  destruct v; cbn; try (split; [discriminate | intros [=]]).
  rewrite pystr_eqb_eq. split; [intros -> | intros [= ->]]; reflexivity.
Qed.

Lemma bind_Ok {A B} (m : result A) (k : A -> result B) (b : B) :
  bind m k = Ok b -> exists a, m = Ok a /\ k a = Ok b.
Proof. destruct m as [a | e]; cbn; [eauto | discriminate]. Qed.

Lemma mapM_app {A B} (f : A -> result B) (l1 l2 : list A) :
  mapM f (l1 ++ l2) =
  (ys1 <- mapM f l1 ;; ys2 <- mapM f l2 ;; Ok (ys1 ++ ys2)).
Proof.
  induction l1 as [| x l1 IH]; cbn.
  - destruct (mapM f l2); reflexivity.
  - destruct (f x); cbn; [| reflexivity].
    rewrite IH. destruct (mapM f l1); cbn; [| reflexivity].
    destruct (mapM f l2); reflexivity.
Qed.

Lemma mapM_ext_in {A B} (f g : A -> result B) (l : list A) :
  (forall x, In x l -> f x = g x) -> mapM f l = mapM g l.
Proof.
  induction l as [| x l IH]; cbn; intros H; [reflexivity |].
  rewrite (H x), IH by auto. reflexivity.
Qed.

Lemma mapM_Ok_in {A B} (f : A -> result B) (l : list A) (ys : list B) :
  mapM f l = Ok ys -> forall x, In x l -> exists y, f x = Ok y.
Proof.
  revert ys. induction l as [| a l IH]; cbn; intros ys H x Hx; [easy |].
  destruct (f a) as [y |] eqn:Ha; cbn in H; [| discriminate].
  destruct (mapM f l) as [ys' |] eqn:Hl; cbn in H; [| discriminate].
  destruct Hx as [<- | Hx]; eauto.
Qed.

(** ** The encoder *)

Section EncoderFacts.

Lemma filter_none_of_existsb (name : pystr) (ts : list json) :
  existsb (py_eq (JStr name)) ts = false ->
  filter (py_eq (JStr name)) ts = [].
Proof.
  induction ts as [| t ts IH]; cbn [existsb filter]; [reflexivity |].
  destruct (py_eq (JStr name) t); cbn; [discriminate | exact IH].
Qed.

Lemma reachable_registry_ok (e : Encoder) : reachable e -> registry_ok e.
Proof.
  induction 1 as [| e o _ [IHt IHn]].
  - split; [reflexivity | intros; cbn; lia].
  - destruct o as [c |]; cbn; [| now split].
    destruct (existsb (py_eq (target c)) (_targets e)) eqn:Hin; cbn;
      [now split |].
    split; cbn [_targets _codecs].
    + rewrite map_app, IHt. reflexivity.
    + intros name. rewrite filter_app, length_app. cbn [filter].
      destruct (py_eq (JStr name) (target c)) eqn:Hc; cbn [length].
      * apply py_eq_str in Hc. rewrite Hc in Hin.
        rewrite (filter_none_of_existsb _ _ Hin). cbn. lia.
      * specialize (IHn name). lia.
Qed.

Lemma codecs_for_targets (name : pystr) (e : Encoder) :
  _targets e = map target (_codecs e) ->
  length (codecs_for name e) =
  length (filter (py_eq (JStr name)) (_targets e)).
Proof.
  unfold codecs_for, codecs. intros ->.
  induction (_codecs e) as [| c cs IH]; cbn [filter map]; [reflexivity |].
  destruct (py_eq (JStr name) (target c)); cbn [length]; now rewrite IH.
Qed.

Lemma existsb_of_In (name : pystr) (ts : list json) :
  In (JStr name) ts -> existsb (py_eq (JStr name)) ts = true.
Proof.
  intros H. apply existsb_exists. exists (JStr name). split; [exact H |].
  now apply py_eq_str.
Qed.

Lemma filter_some_of_In (name : pystr) (ts : list json) :
  In (JStr name) ts ->
  (1 <= length (filter (py_eq (JStr name)) ts))%nat.
Proof.
  induction ts as [| t ts IH]; cbn [In filter]; [easy |].
  intros [-> | H].
  - rewrite (proj2 (py_eq_str name (JStr name)) eq_refl). cbn. lia.
  - destruct (py_eq (JStr name) t); cbn [length]; [lia | auto].
Qed.

End EncoderFacts.

(** C6: adding a codec whose target name is that of a codec already added
    raises [ValueError] (the duplicate-target error) and returns the encoder
    as it was, so the codecs and their order are those of before; and the
    encoder holds exactly one codec for that target. *)
Theorem add_duplicate_target_rejected (e : Encoder) (c : Codec) (name : pystr) :
  reachable e ->
  target c = JStr name ->
  In (JStr name) (map target (codecs e)) ->
  add e (ACodec c) = (e, Raise ValueError) /\
  codecs (fst (add e (ACodec c))) = codecs e /\
  length (codecs_for name (fst (add e (ACodec c)))) = 1%nat.
Proof.
  intros Hr Hc Hin.
  destruct (reachable_registry_ok e Hr) as [Ht Hn].
  unfold codecs in Hin. rewrite <- Ht in Hin.
  assert (Hadd : add e (ACodec c) = (e, Raise ValueError)).
  { unfold add. rewrite Hc, (existsb_of_In _ _ Hin). reflexivity. }
  rewrite Hadd. cbn. repeat split.
  rewrite (codecs_for_targets name e Ht).
  specialize (Hn name). pose proof (filter_some_of_In _ _ Hin). lia.
Qed.

(** ** The rule chain *)

Section RuleChain.

Variable unicodedata_lookup : pystr -> option N.
Variable depth : nat.
Variable doc : document.

Lemma fold_frames_chain (rs : list (AstNode * AstNode)) (last : AstNode) :
  fold_left frame (rev rs) last = chain rs last.
Proof.
  induction rs as [| [g e] rs IH]; cbn; [reflexivity |].
  rewrite fold_left_app. cbn. unfold frame at 1. cbn. now rewrite IH.
Qed.

Lemma plug_chain (rs : list (AstNode * AstNode)) (c t f : AstNode) :
  plug (rev rs, (c, t, f)) = chain rs (If c t f).
Proof. unfold plug. apply fold_frames_chain. Qed.

(** One turn of the loop on the rule [{guard: emitter}]. *)
Lemma build_step_rule (above : list (AstNode * AstNode)) (r : pystr * json) :
  build_step unicodedata_lookup depth doc (userdefined_emitters_of doc)
             (above, If_default) (rule_of r) =
  (p <- parse_pair unicodedata_lookup depth doc r ;;
   Ok (p :: above, If_default)).
Proof.
  destruct r as [g e]. unfold build_step, parse_pair, rule_of, parseRule.
  cbn [fst snd If_default].
  destruct (parseGuard unicodedata_lookup g) as [og |]; cbn [bind];
    [| reflexivity].
  destruct (parseEmitter depth doc (userdefined_emitters_of doc) e) as [em |];
    cbn [bind]; [| reflexivity].
  destruct (If_set_condition og); reflexivity.
Qed.

(** The loop leaves the parsed rules behind it, the last one innermost. *)
Lemma build_loop_rules (rules : list (pystr * json))
    (above : list (AstNode * AstNode)) :
  build_loop unicodedata_lookup depth doc (userdefined_emitters_of doc)
             (above, If_default) (map rule_of rules) =
  (rs <- mapM (parse_pair unicodedata_lookup depth doc) rules ;;
   Ok (rev rs ++ above, If_default)).
Proof.
  revert above. induction rules as [| r rules IH]; intros above;
    cbn [map build_loop mapM]; [reflexivity |].
  rewrite build_step_rule.
  destruct (parse_pair unicodedata_lookup depth doc r) as [p |];
    cbn [bind]; [| reflexivity].
  rewrite IH.
  destruct (mapM (parse_pair unicodedata_lookup depth doc) rules) as [rs |];
    cbn [bind rev]; [| reflexivity].
  now rewrite <- app_assoc.
Qed.

Lemma build_ast_rules (rules : list (pystr * json)) :
  build_ast unicodedata_lookup depth doc (userdefined_emitters_of doc)
            (JList (map rule_of rules)) (default_emitter_of doc) =
  (rs <- mapM (parse_pair unicodedata_lookup depth doc) rules ;;
   last <- final_emitter depth doc ;;
   Ok (chain rs (If (Bool true) last Nop))).
Proof.
  unfold build_ast, final_emitter. cbn [py_iter bind].
  rewrite build_loop_rules.
  destruct (mapM (parse_pair unicodedata_lookup depth doc) rules) as [rs |];
    cbn [bind If_default]; [| reflexivity].
  rewrite app_nil_r.
  destruct (truthy (default_emitter_of doc)).
  - destruct (parseEmitter depth doc (userdefined_emitters_of doc)
                           (default_emitter_of doc));
      cbn [bind]; [| reflexivity].
    now rewrite plug_chain.
  - cbn [bind]. now rewrite plug_chain.
Qed.

End RuleChain.

(** C1, as the code has it: for a document whose [RULES] are the rules
    [{guard_1: emitter_1}, ..., {guard_n: emitter_n}], the constructor parses
    the rules in order, then the default, and the tree is the right-leaning
    chain with one [If] per rule (its condition the parsed guard, its
    true-branch the parsed emitter, its false-branch the next [If]), ended by
    an [If] whose condition is [true] and whose true-branch is the parsed
    default when the document has a default that counts as true, and [Nop]
    otherwise; the first exception of a parse is the constructor's. *)
Theorem codec_ast_is_rule_chain (unicodedata_lookup : pystr -> option N)
    (depth : nat) (doc : document) (rules : list (pystr * json)) (t : json) :
  dict_get doc (py "RULES") = Some (JList (map rule_of rules)) ->
  dict_get doc (py "TARGET") = Some t ->
  result_map ast (Codec_init unicodedata_lookup depth doc) =
  (rs <- mapM (parse_pair unicodedata_lookup depth doc) rules ;;
   last <- final_emitter depth doc ;;
   Ok (chain rs (If (Bool true) last Nop))).
Proof.
  intros Hrules Htarget. unfold Codec_init, result_map.
  rewrite Hrules, Htarget, build_ast_rules.
  destruct (mapM (parse_pair unicodedata_lookup depth doc) rules) as [rs |];
    cbn [bind]; [| reflexivity].
  destruct (final_emitter depth doc); reflexivity.
Qed.

(** C5, as the code has it: the emitters of a compiled codec are the four
    builtin names, used or not, followed by the document's user-defined
    names in document order. *)
Theorem emitters_builtins_then_userdefined
    (unicodedata_lookup : pystr -> option N) (depth : nat) (doc : document)
    (c : Codec) :
  Codec_init unicodedata_lookup depth doc = Ok c ->
  emitters c =
  [py "DEC"; py "HEX"; py "NOP"; py "IDENTITY"] ++ userdefined_emitters_of doc.
Proof.
  unfold Codec_init. intros H.
  destruct (dict_get doc (py "RULES")) as [rules |]; [| discriminate].
  destruct (dict_get doc (py "TARGET")) as [t |]; [| discriminate].
  apply bind_Ok in H. destruct H as (root & _ & [= <-]). reflexivity.
Qed.

(** ** Induction over trees *)

Lemma AstNode_nested_ind (P : AstNode -> Prop) :
  (forall c, P (Codepoint c)) ->
  P Candidate ->
  (forall op a b, P a -> P b -> P (BinOp op a b)) ->
  (forall b, P (Bool b)) ->
  P Nop ->
  (forall name, P (Builtin name)) ->
  (forall s, P (ConstantEmitter s)) ->
  (forall l, Forall P l -> P (EmitterList l)) ->
  (forall c t f, P c -> P t -> P f -> P (If c t f)) ->
  forall n, P n.
Proof.
  intros Hcp Hca Hbin Hbool Hnop Hbu Hco Hel Hif.
  fix IH 1. intros [c | | op a b | b | | name | s | l | c t f].
  - apply Hcp.
  - apply Hca.
  - apply Hbin; apply IH.
  - apply Hbool.
  - apply Hnop.
  - apply Hbu.
  - apply Hco.
  - apply Hel. induction l as [| x l IHl]; constructor; [apply IH | exact IHl].
  - apply Hif; apply IH.
Qed.

(** [walk] is the node followed by the walks of its children. *)
Lemma walk_children (n : AstNode) :
  walk n = n :: flat_map walk (children n).
Proof.
  destruct n; cbn [walk children flat_map]; rewrite ?app_nil_r; reflexivity.
Qed.

(** ** The formatter *)

Section FormatterFacts.

Variable str_format :
  pystr -> list fmtarg -> list (pystr * fmtarg) -> result pystr.

Lemma getFstring_ext (f1 f2 : AstFormatter) (node : AstNode) :
  (forall k,
     dict_get (_format_strings f1) k = dict_get (_format_strings f2) k) ->
  getFstring f1 node = getFstring f2 node.
Proof.
  intros H. destruct node; unfold getFstring; now rewrite H.
Qed.

Lemma visit_ext (f1 f2 : AstFormatter) :
  (forall k,
     dict_get (_format_strings f1) k = dict_get (_format_strings f2) k) ->
  (forall c, escape_func f1 c = escape_func f2 c) ->
  forall node, visit str_format f1 node = visit str_format f2 node.
Proof.
  intros Hfs Hesc.
  induction node
    as [c | | op a b IHa IHb | b | | name | s | l IHl | c t f IHc IHt IHf]
    using AstNode_nested_ind;
    cbn [visit]; rewrite ?(getFstring_ext f1 f2 _ Hfs); try reflexivity.
  - now rewrite IHa, IHb.
  - now rewrite (map_ext _ _ Hesc).
  - rewrite (mapM_ext_in (visit str_format f1) (visit str_format f2) l);
      [reflexivity |].
    now apply Forall_forall.
  - now rewrite IHc, IHt, IHf.
Qed.

Variable self : AstFormatter.

Lemma getFstring_subscripted (node : AstNode) :
  subscripted node = true ->
  dict_get (_format_strings self) (class_name node) = None ->
  getFstring self node = Raise KeyError.
Proof.
  intros Hs Hk. destruct node; try discriminate Hs;
    unfold getFstring; now rewrite Hk.
Qed.

Lemma getFstring_Ok_subscripted (node : AstNode) (fs : pystr) :
  getFstring self node = Ok fs ->
  subscripted node = true ->
  dict_mem (_format_strings self) (class_name node) = true.
Proof.
  intros Hg Hs. unfold dict_mem.
  destruct node; try discriminate Hs; unfold getFstring in Hg;
    destruct (dict_get _ _); (reflexivity || discriminate).
Qed.

Lemma visit_subscripted_head (node : AstNode) :
  subscripted node = true ->
  getFstring self node = Raise KeyError ->
  visit str_format self node = Raise KeyError.
Proof.
  intros Hs Hg. destruct node; try discriminate Hs; cbn [visit];
    now rewrite Hg.
Qed.

Lemma visit_Ok_templates (node : AstNode) :
  forall out, visit str_format self node = Ok out ->
  forall n, In n (walk node) -> subscripted n = true ->
  dict_mem (_format_strings self) (class_name n) = true.
Proof.
  induction node
    as [c | | op a b IHa IHb | b | | name | s | l IHl | c t f IHc IHt IHf]
    using AstNode_nested_ind;
    intros out Hv n Hin Hs; cbn [visit] in Hv; cbn [walk] in Hin.
  - destruct Hin as [<- | []]. apply bind_Ok in Hv.
    destruct Hv as (fs & Hg & _).
    eapply getFstring_Ok_subscripted; eauto.
  - destruct Hin as [<- | []]. eapply getFstring_Ok_subscripted; eauto.
  - apply bind_Ok in Hv. destruct Hv as (fs & _ & Hv).
    apply bind_Ok in Hv. destruct Hv as (ra & Ha & Hv).
    apply bind_Ok in Hv. destruct Hv as (rb & Hb & _).
    destruct Hin as [<- | Hin]; [discriminate Hs |].
    apply in_app_or in Hin. destruct Hin; eauto.
  - destruct Hin as [<- | []]. discriminate Hs.
  - destruct Hin as [<- | []]. eapply getFstring_Ok_subscripted; eauto.
  - destruct Hin as [<- | []]. apply bind_Ok in Hv.
    destruct Hv as (fs & Hg & _).
    eapply getFstring_Ok_subscripted; eauto.
  - destruct Hin as [<- | []]. apply bind_Ok in Hv.
    destruct Hv as (fs & Hg & _).
    eapply getFstring_Ok_subscripted; eauto.
  - apply bind_Ok in Hv. destruct Hv as (ss & Hm & _).
    destruct Hin as [<- | Hin]; [discriminate Hs |].
    apply in_flat_map in Hin. destruct Hin as (x & Hx & Hin).
    destruct (mapM_Ok_in _ _ _ Hm x Hx) as (y & Hy).
    rewrite Forall_forall in IHl. eapply IHl; eauto.
  - apply bind_Ok in Hv. destruct Hv as (fs & Hg & Hv).
    apply bind_Ok in Hv. destruct Hv as (rc & Hc & Hv).
    apply bind_Ok in Hv. destruct Hv as (rt & Ht & Hv).
    apply bind_Ok in Hv. destruct Hv as (rf & Hf & _).
    destruct Hin as [<- | Hin];
      [eapply getFstring_Ok_subscripted; eauto |].
    apply in_app_or in Hin. destruct Hin as [Hin | Hin]; [eauto |].
    apply in_app_or in Hin. destruct Hin; eauto.
Qed.

End FormatterFacts.

(** C4, as the code has it: a node of a class whose template is
    subscripted ([If], [Candidate], [Codepoint], [Nop], [Builtin],
    [ConstantEmitter]) and has no entry makes [visit] raise [KeyError] at
    once; a render that returns has found the template of every such node of
    the tree; and for a [BinOp] or a [Bool] a missing entry is no error:
    [getFstring] answers the empty template. *)
Theorem visit_missing_template
    (str_format : pystr -> list fmtarg -> list (pystr * fmtarg) -> result pystr)
    (self : AstFormatter) (node : AstNode) :
  (subscripted node = true ->
   dict_get (_format_strings self) (class_name node) = None ->
   visit str_format self node = Raise KeyError) /\
  (forall out, format str_format self node = Ok out ->
   forall n, In n (walk node) -> subscripted n = true ->
   dict_mem (_format_strings self) (class_name n) = true) /\
  (is_Guard node = true ->
   dict_get (_format_strings self) (dispatch_key node) = None ->
   getFstring self node = Ok []).
Proof.
  split; [| split].
  - intros Hs Hk. apply visit_subscripted_head; [exact Hs |].
    now apply getFstring_subscripted.
  - apply visit_Ok_templates.
  - intros Hg Hk. destruct node; try discriminate Hg;
      unfold getFstring; now rewrite Hk.
Qed.

(** C9: rendering depends on the formatter only through what its
    templates answer for each key and what its escape function answers for
    each character, so two renders of a node with the same template mapping
    and the same escape function give the same result, string or
    exception. *)
Theorem format_deterministic
    (str_format : pystr -> list fmtarg -> list (pystr * fmtarg) -> result pystr)
    (f1 f2 : AstFormatter) (node : AstNode) :
  (forall k,
     dict_get (_format_strings f1) k = dict_get (_format_strings f2) k) ->
  (forall c, escape_func f1 c = escape_func f2 c) ->
  format str_format f1 node = format str_format f2 node.
Proof. intros Hfs Hesc. now apply visit_ext. Qed.

(** ** Resolution of emitter names *)

Section EmitterFacts.

Variable doc : document.
Variable userdefined : list pystr.

Lemma dict_get_ref (a : pystr) :
  dict_get [(py "emitter", JStr a)] (py "emitter") = Some (JStr a).
Proof. cbn [dict_get]. now rewrite pystr_eqb_refl. Qed.

Lemma json_in_strs_In (a : pystr) :
  In a userdefined -> json_in_strs (JStr a) userdefined = true.
Proof.
  intros H. apply existsb_exists. exists a. split; [exact H |].
  apply pystr_eqb_refl.
Qed.

(** A list with an element that raises does not evaluate. *)
Lemma mapM_raises (depth : nat) (before : list json) (x : json)
    (after : list json) (e0 : exn) :
  parseEmitter_at doc userdefined depth x = Raise e0 ->
  exists e, mapM (parseEmitter_at doc userdefined depth)
                 (before ++ x :: after) = Raise e.
Proof.
  intros Hx. induction before as [| y before [e IH]]; cbn [app mapM].
  - exists e0. now rewrite Hx.
  - destruct (parseEmitter_at doc userdefined depth y); cbn [bind]; [| eauto].
    exists e. now rewrite IH.
Qed.

(** Constants followed by an element that overflows the stack overflow
    the stack. *)
Lemma mapM_consts_overflow (depth : nat) (consts : list pystr)
    (x : json) (after : list json) :
  parseEmitter_at doc userdefined depth x = Raise RecursionError ->
  mapM (parseEmitter_at doc userdefined depth)
       (map JStr consts ++ x :: after) = Raise RecursionError.
Proof.
  intros Hx. induction consts as [| s consts IH]; cbn [map app mapM].
  - now rewrite Hx.
  - assert (Hs : parseEmitter_at doc userdefined depth (JStr s)
                 = Raise RecursionError \/
                 parseEmitter_at doc userdefined depth (JStr s)
                 = Ok (ConstantEmitter s))
      by (destruct depth; [left | right]; reflexivity).
    destruct Hs as [-> | ->]; cbn [bind]; [reflexivity | now rewrite IH].
Qed.

Lemma closed_cycle_raises (consts_only : bool) (names : list pystr) :
  closed_cycle consts_only doc userdefined names ->
  forall depth a, In a names ->
  exists e,
    parseEmitter_at doc userdefined depth (ref a) = Raise e /\
    (consts_only = true -> e = RecursionError).
Proof.
  intros Hcyc. induction depth as [| d IH]; intros a Ha;
    [exists RecursionError; split; reflexivity |].
  destruct (Hcyc a Ha) as (Hud & before & b & after & Hdef & Hconsts & Hb).
  destruct (IH b Hb) as (e0 & He0 & Hrec).
  unfold ref. cbn [parseEmitter_at]. rewrite dict_get_ref.
  rewrite (json_in_strs_In a Hud), Hdef. cbn [py_iter bind].
  destruct consts_only.
  - destruct (Hconsts eq_refl) as (consts & ->).
    rewrite (Hrec eq_refl) in He0.
    exists RecursionError. now rewrite mapM_consts_overflow.
  - destruct (mapM_raises d before (ref b) after e0 He0) as (e & He).
    exists e. rewrite He. split; [reflexivity | discriminate].
Qed.

End EmitterFacts.

(** C3, as the code has it: nothing tracks the names being resolved.
    When a user-defined name's definition contains a reference to a name
    whose definition leads back in the same way, its resolution never gives
    an emitter: whatever the depth the interpreter allows, [parseEmitter]
    raises; and when only constant strings precede those references, the
    nested calls exhaust the stack and the exception is [RecursionError]. *)
Theorem cyclic_emitter_overflows (consts_only : bool) (doc : document)
    (names : list pystr) (depth : nat) (a : pystr) :
  closed_cycle consts_only doc (userdefined_emitters_of doc) names ->
  In a names ->
  exists e,
    parseEmitter depth doc (userdefined_emitters_of doc) (ref a) = Raise e /\
    (consts_only = true -> e = RecursionError).
Proof.
  intros Hcyc Ha. unfold parseEmitter.
  now apply closed_cycle_raises with (names := names).
Qed.

(** ** Hexadecimal digits *)

Lemma hexval_hexchar (upper : bool) (d : N) :
  d < 16 -> hexval (hexchar upper d) = d.
Proof.
  intros H. destruct d as [| p]; [reflexivity |].
  do 4 (try (destruct p as [p | p |]; try lia)); destruct upper; reflexivity.
Qed.

Lemma is_hex_hexchar (upper : bool) (d : N) :
  d < 16 -> is_hex (hexchar upper d) = true.
Proof.
  intros H. destruct d as [| p]; [reflexivity |].
  do 4 (try (destruct p as [p | p |]; try lia)); destruct upper; reflexivity.
Qed.

Lemma int16_snoc (s : pystr) (c : N) :
  int16 (s ++ [c]) = 16 * int16 s + hexval c.
Proof. unfold int16. now rewrite fold_left_app. Qed.

Lemma int16_hex_digits (upper : bool) (width : nat) (n : N) :
  int16 (hex_digits upper width n) = n mod 16 ^ N.of_nat width.
Proof.
  revert n. induction width as [| w IH]; intros n.
  - cbn. now rewrite N.mod_1_r.
  - cbn [hex_digits]. rewrite int16_snoc, IH.
    rewrite hexval_hexchar by (apply N.mod_lt; lia).
    rewrite Nat2N.inj_succ, N.pow_succ_r', N.Div0.mod_mul_r. lia.
Qed.

Lemma length_hex_digits (upper : bool) (width : nat) (n : N) :
  length (hex_digits upper width n) = width.
Proof.
  revert n. induction width as [| w IH]; intros n; [reflexivity |].
  cbn [hex_digits]. rewrite length_app, IH. cbn. lia.
Qed.

Lemma forallb_hex_digits (upper : bool) (width : nat) (n : N) :
  forallb is_hex (hex_digits upper width n) = true.
Proof.
  revert n. induction width as [| w IH]; intros n; [reflexivity |].
  cbn [hex_digits]. rewrite forallb_app, IH. cbn [forallb andb].
  rewrite is_hex_hexchar by (apply N.mod_lt; lia). reflexivity.
Qed.

(** ** Matching the guard patterns *)

Ltac hexrw :=
  repeat match goal with
    | H : re.in_class _ ?d = true |- context [re.in_class _ ?d] => rewrite H
    end.

(** Run the matcher as far as the text is known. *)
Ltac crunch := unfold is_hex in *; repeat (cbn; hexrw).

Ltac split_tests :=
  repeat match goal with
    | |- context [?x =? ?y] => destruct (x =? y); crunch
    end.

Lemma operand_ok_shape (o : operand) : operand_ok o = true -> shape o.
Proof.
  destruct o as [c | p ds]; [constructor |].
  unfold operand_ok.
  rewrite !andb_true_iff, !orb_true_iff, !N.eqb_eq, !Nat.eqb_eq.
  intros [[[Hp Hl] Hh] _].
  destruct ds as [| d1 [| d2 [| d3 [| d4 [| d5 [| d6 [| d7 ds]]]]]]];
    cbn in Hl; try (destruct Hl; discriminate);
    cbn [forallb] in Hh; rewrite !andb_true_iff in Hh;
    constructor; tauto.
Qed.

Lemma single_char_long (x y z : N) (tl : pystr) :
  re.match_ true _single_char_regex (x :: y :: z :: tl) = None.
Proof. reflexivity. Qed.

Lemma unicode_form_paren (tl : pystr) :
  re.match_ false _unicode_form_regex (40 :: tl) = None.
Proof. reflexivity. Qed.

Lemma unicode_form_single (c : N) :
  re.match_ false _unicode_form_regex [c] = None.
Proof. unfold re.match_. crunch. split_tests; reflexivity. Qed.

Lemma unicode_form_escape (p : N) (ds : pystr) :
  shape (Escape p ds) ->
  re.match_ false _unicode_form_regex (p :: 43 :: ds) = Some [(1%nat, ds)].
Proof.
  intros H. unfold re.match_.
  inversion H as [| ? ? ? ? ? Hp | ? ? ? ? ? ? ? Hp]; subst;
    destruct Hp as [-> | ->]; crunch; reflexivity.
Qed.

Lemma range_match (A B : operand) (tl : pystr) :
  shape A -> shape B ->
  re.match_ true _range_regex
    (40 :: operand_text A ++ 45 :: operand_text B ++ 41 :: tl) =
  Some [(2%nat, operand_text B); (1%nat, operand_text A)].
Proof.
  intros HA HB. unfold re.match_.
  destruct HA as [a | p ? ? ? ? Hp | p ? ? ? ? ? ? Hp];
    destruct HB as [b | q ? ? ? ? Hq | q ? ? ? ? ? ? Hq];
    repeat match goal with H : _ \/ _ |- _ => destruct H as [-> | ->] end;
    crunch; split_tests; reflexivity.
Qed.

Lemma range_operand_text (o : operand) :
  operand_ok o = true ->
  range_operand (operand_text o) = Ok [operand_ord o].
Proof.
  intros Hok. pose proof (operand_ok_shape o Hok) as Hs. unfold range_operand.
  destruct o as [c | p ds]; cbn [operand_text operand_ord] in *.
  - now rewrite unicode_form_single.
  - rewrite (unicode_form_escape p ds Hs). cbn [re.group Nat.eqb].
    unfold operand_ok in Hok. rewrite !andb_true_iff in Hok.
    destruct Hok as [_ Hlt]. unfold chr. now rewrite Hlt.
Qed.

Lemma pystr_leb_single (a b : N) : pystr_leb [a] [b] = (a <=? b).
Proof.
  cbn. destruct (a <? b) eqn:Hab, (b <? a) eqn:Hba, (a <=? b) eqn:Hle;
    try reflexivity;
    rewrite ?N.ltb_lt, ?N.ltb_ge, ?N.leb_le, ?N.leb_gt in *; lia.
Qed.

Section GuardFacts.

Variable unicodedata_lookup : pystr -> option N.

(** A range followed by anything: the pattern looks no further than
    the closing parenthesis. *)
Lemma parseGuard_range_then (A B : operand) (tl : pystr) :
  operand_ok A = true -> operand_ok B = true ->
  parseGuard unicodedata_lookup
    (40 :: operand_text A ++ 45 :: operand_text B ++ 41 :: tl) =
  if operand_ord A <=? operand_ord B
  then Ok (Some (range_predicate (operand_ord A) (operand_ord B)))
  else Raise AssertionError.
Proof.
  intros HA HB. unfold parseGuard.
  assert (Hlong : exists x y z rest,
             40 :: operand_text A ++ 45 :: operand_text B ++ 41 :: tl
             = x :: y :: z :: rest)
    by (destruct A as [a | p [| d ds]]; cbn [operand_text app]; eauto).
  destruct Hlong as (x & y & z & rest & Hlong).
  rewrite Hlong at 1. rewrite single_char_long, unicode_form_paren.
  rewrite (range_match A B tl (operand_ok_shape A HA) (operand_ok_shape B HB)).
  cbn [re.group Nat.eqb].
  rewrite (range_operand_text A HA), (range_operand_text B HB).
  cbn [bind]. rewrite pystr_leb_single.
  destruct (operand_ord A <=? operand_ord B); reflexivity.
Qed.

Lemma parseGuard_escape (p : N) (ds : pystr) :
  shape (Escape p ds) -> int16 ds < 0x110000 ->
  parseGuard unicodedata_lookup (p :: 43 :: ds) =
  Ok (Some (eq_predicate (int16 ds))).
Proof.
  intros Hs Hlt. unfold parseGuard.
  assert (Hlong : exists x y z rest, ds = x :: y :: z :: rest)
    by (inversion Hs; eauto).
  destruct Hlong as (x & y & z & rest & ->).
  rewrite single_char_long, (unicode_form_escape _ _ Hs).
  cbn [re.group Nat.eqb]. unfold chr.
  apply N.ltb_lt in Hlt. now rewrite Hlt.
Qed.

Lemma parseGuard_literal (c : N) :
  parseGuard unicodedata_lookup [c] = Ok (Some (eq_predicate c)).
Proof. reflexivity. Qed.

Lemma hex_escape_shape (upper : bool) (width : nat) (n : N) :
  width = 4%nat \/ width = 6%nat -> n < 0x110000 -> n < 16 ^ N.of_nat width ->
  shape (Escape 85 (hex_digits upper width n)) /\
  int16 (hex_digits upper width n) = n.
Proof.
  intros Hw Hn Hfit.
  assert (Hint : int16 (hex_digits upper width n) = n)
    by (rewrite int16_hex_digits; now apply N.mod_small).
  split; [| exact Hint].
  apply operand_ok_shape. unfold operand_ok.
  rewrite length_hex_digits, forallb_hex_digits, Hint.
  apply N.ltb_lt in Hn. rewrite Hn.
  destruct Hw as [-> | ->]; reflexivity.
Qed.

End GuardFacts.

Lemma holds_range (a b p : N) :
  holds p (range_predicate a b) = Some ((a <=? p) && (p <=? b)).
Proof. reflexivity. Qed.

Lemma holds_eq (c p : N) : holds p (eq_predicate c) = Some (p =? c).
Proof. reflexivity. Qed.

(** C7: for a range [(A-B)] whose sides are literal characters or escapes
    and whose left ordinal is at most the right one, [parseGuard] returns
    [AND(GTE(Candidate, Codepoint(A)), LTE(Candidate, Codepoint(B)))], which
    holds of a candidate [p] exactly when [ord A <= p <= ord B]. *)
Theorem parseGuard_range (unicodedata_lookup : pystr -> option N)
    (A B : operand) :
  operand_ok A = true -> operand_ok B = true ->
  operand_ord A <= operand_ord B ->
  parseGuard unicodedata_lookup (range_text A B) =
  Ok (Some (range_predicate (operand_ord A) (operand_ord B))) /\
  forall p,
    holds p (range_predicate (operand_ord A) (operand_ord B)) = Some true <->
    operand_ord A <= p <= operand_ord B.
Proof.
  intros HA HB Hle. split.
  - unfold range_text.
    rewrite (parseGuard_range_then unicodedata_lookup A B [] HA HB).
    apply N.leb_le in Hle. now rewrite Hle.
  - intros p. rewrite holds_range. split.
    + intros [= H]. apply andb_true_iff in H. now rewrite !N.leb_le in H.
    + intros [H1 H2]. apply N.leb_le in H1, H2. now rewrite H1, H2.
Qed.

(** C10: text after the closing parenthesis of a well-formed range is
    not looked at: [parseGuard] returns the predicate of the range alone,
    whatever follows it. *)
Theorem parseGuard_range_ignores_trailing
    (unicodedata_lookup : pystr -> option N) (A B : operand) (extra : pystr) :
  operand_ok A = true -> operand_ok B = true ->
  operand_ord A <= operand_ord B ->
  extra <> [] ->
  parseGuard unicodedata_lookup (range_text A B ++ extra) =
  Ok (Some (range_predicate (operand_ord A) (operand_ord B))) /\
  parseGuard unicodedata_lookup (range_text A B ++ extra) =
  parseGuard unicodedata_lookup (range_text A B).
Proof.
  intros HA HB Hle _.
  assert (Htext : range_text A B ++ extra =
                  40 :: operand_text A ++ 45 :: operand_text B ++ 41 :: extra).
  { unfold range_text. cbn [app]. rewrite <- app_assoc. cbn [app].
    now rewrite <- app_assoc. }
  rewrite Htext. unfold range_text.
  rewrite (parseGuard_range_then unicodedata_lookup A B extra HA HB).
  rewrite (parseGuard_range_then unicodedata_lookup A B [] HA HB).
  apply N.leb_le in Hle. now rewrite Hle.
Qed.

(** A range whose left ordinal exceeds the right one fails the assertion. *)
Lemma parseGuard_range_reversed
    (unicodedata_lookup : pystr -> option N) (A B : operand) :
  operand_ok A = true -> operand_ok B = true ->
  operand_ord B < operand_ord A ->
  parseGuard unicodedata_lookup (range_text A B) = Raise AssertionError.
Proof.
  intros HA HB Hlt. unfold range_text.
  rewrite (parseGuard_range_then unicodedata_lookup A B [] HA HB).
  apply N.leb_gt in Hlt. now rewrite Hlt.
Qed.

(** C8: a literal character, its six-digit escape and, for a character
    of the basic multilingual plane, its four-digit escape all parse to
    [EQ(Candidate, Codepoint(c))], which holds of the candidate [c] and of no
    other. *)
Theorem literal_and_escapes_agree
    (unicodedata_lookup : pystr -> option N) (upper : bool) (c : N) :
  c < 0x110000 ->
  parseGuard unicodedata_lookup [c] = Ok (Some (eq_predicate c)) /\
  parseGuard unicodedata_lookup (py "U+" ++ hex_digits upper 6 c) =
  Ok (Some (eq_predicate c)) /\
  (c < 0x10000 ->
   parseGuard unicodedata_lookup (py "U+" ++ hex_digits upper 4 c) =
   Ok (Some (eq_predicate c))) /\
  forall p, holds p (eq_predicate c) = Some true <-> p = c.
Proof.
  intros Hc. split; [apply parseGuard_literal | split; [| split]].
  - destruct (hex_escape_shape upper 6 c) as [Hs Hint];
      [auto | lia | cbn; lia |].
    change (py "U+" ++ hex_digits upper 6 c)
      with (85 :: 43 :: hex_digits upper 6 c).
    rewrite parseGuard_escape; rewrite ?Hint; auto.
  - intros Hbmp.
    destruct (hex_escape_shape upper 4 c) as [Hs Hint];
      [auto | lia | cbn; lia |].
    change (py "U+" ++ hex_digits upper 4 c)
      with (85 :: 43 :: hex_digits upper 4 c).
    rewrite parseGuard_escape; rewrite ?Hint; auto.
  - intros p. rewrite holds_eq. split.
    + intros [= H]. now apply N.eqb_eq.
    + intros ->. now rewrite N.eqb_refl.
Qed.

(** C2 at the inputs that decide it: a range followed by more text is
    accepted as the range, by [parseGuard] and by the constructor, and an
    escape followed by a newline is accepted as the escape; a reversed range
    fails the assertion, and a text of no form makes [parseGuard] return
    [None], which the [condition] setter refuses. *)
Theorem parseGuard_accepts_text_after_range
    (unicodedata_lookup : pystr -> option N) :
  parseGuard unicodedata_lookup (py "(a-b)x") =
  Ok (Some (range_predicate 97 98)) /\
  result_map ast (Codec_init unicodedata_lookup 1000 trailing_document) =
  Ok (If (range_predicate 97 98) (ConstantEmitter (py "y"))
         (If (Bool true) Nop Nop)) /\
  parseGuard unicodedata_lookup (py "U+0041" ++ [10]) =
  Ok (Some (eq_predicate 65)) /\
  parseGuard unicodedata_lookup (py "(z-a)") = Raise AssertionError /\
  parseGuard unicodedata_lookup (py "ab") = Ok None /\
  If_set_condition None = Raise AttributeError.
Proof. repeat split; vm_compute; reflexivity. Qed.

(** ** The theorems at concrete inputs *)

(** C1 on the html document: its two rules and its default give a chain
    of three [If] nodes. *)
Lemma codec_ast_is_rule_chain_witness :
  dict_get html_document (py "RULES") = Some (JList (map rule_of html_rules)) /\
  dict_get html_document (py "TARGET") = Some (JStr (py "html")) /\
  result_map ast (Codec_init unicodedata_excerpt 1000 html_document) =
  Ok (If (eq_predicate 60) (Builtin (py "HEX"))
        (If (range_predicate 97 122) (ConstantEmitter (py "x"))
           (If (Bool true) (Builtin (py "IDENTITY")) Nop))).
Proof.
  split; [reflexivity | split; [reflexivity |]].
  etransitivity.
  - apply (codec_ast_is_rule_chain unicodedata_excerpt 1000 html_document
             html_rules (JStr (py "html"))); reflexivity.
  - vm_compute. reflexivity.
Defined.

(** C1 as stated fails: the document supplies the default [""], which
    [parseEmitter] turns into [ConstantEmitter("")], and the true-branch of
    the last [If] is [Nop]. *)
Lemma empty_default_is_dropped :
  dict_get empty_default_document (py "DEFAULT-EMITTER") = Some (JStr []) /\
  parseEmitter 1000 empty_default_document
    (userdefined_emitters_of empty_default_document) (JStr []) =
  Ok (ConstantEmitter []) /\
  result_map ast (Codec_init unicodedata_excerpt 1000 empty_default_document) =
  Ok (If (Bool true) Nop Nop).
Proof. repeat split; vm_compute; reflexivity. Qed.

(** C3 on the document that defines ["A"] as [[{"emitter": "A"}]]. *)
Lemma cyclic_emitter_overflows_witness :
  closed_cycle true selfref_document
               (userdefined_emitters_of selfref_document) [py "A"] /\
  In (py "A") [py "A"] /\
  exists e,
    parseEmitter 1000 selfref_document
      (userdefined_emitters_of selfref_document) (ref (py "A")) = Raise e /\
    (true = true -> e = RecursionError).
Proof.
  assert (Hcyc : closed_cycle true selfref_document
                   (userdefined_emitters_of selfref_document) [py "A"]).
  { intros a [<- | []]. split; [left; reflexivity |].
    exists [], (py "A"), []. split; [reflexivity |].
    split; [intros _; now exists [] | left; reflexivity]. }
  assert (Hin : In (py "A") [py "A"]) by (left; reflexivity).
  split; [exact Hcyc | split; [exact Hin |]].
  exact (cyclic_emitter_overflows true selfref_document [py "A"] 1000 (py "A")
           Hcyc Hin).
Defined.

(** C3 as stated fails: resolving ["A"] ends in the interpreter's
    [RecursionError], at the usual limit as at a small one.  That exception
    is no cycle check: the nested document has no cycle, and resolving its
    ["A"] raises it too on a stack one call short, and succeeds on a stack
    of three. *)
Lemma selfref_emitter_exhausts_stack :
  parseEmitter 1000 selfref_document
    (userdefined_emitters_of selfref_document) (ref (py "A")) =
  Raise RecursionError /\
  parseEmitter 3 selfref_document
    (userdefined_emitters_of selfref_document) (ref (py "A")) =
  Raise RecursionError /\
  parseEmitter 2 nested_document
    (userdefined_emitters_of nested_document) (ref (py "A")) =
  Raise RecursionError /\
  parseEmitter 3 nested_document
    (userdefined_emitters_of nested_document) (ref (py "A")) =
  Ok (EmitterList [EmitterList [ConstantEmitter (py "x")]]).
Proof. repeat split; vm_compute; reflexivity. Qed.

(** C4 on a formatter without templates: [Nop] raises [KeyError]. *)
Lemma visit_missing_template_witness :
  subscripted Nop = true /\
  dict_get (_format_strings AstFormatter_init) (class_name Nop) = None /\
  visit format_fields AstFormatter_init Nop = Raise KeyError.
Proof.
  split; [reflexivity | split; [reflexivity |]].
  apply (proj1 (visit_missing_template format_fields AstFormatter_init Nop));
    reflexivity.
Defined.

(** C4 as stated fails: without any template, [Bool.true] and a [BinOp]
    over constants render as the empty string. *)
Lemma missing_guard_template_renders_empty :
  dict_get (_format_strings AstFormatter_init)
           (dispatch_key (Bool true)) = None /\
  format format_fields AstFormatter_init (Bool true) = Ok [] /\
  dict_get (_format_strings AstFormatter_init)
           (dispatch_key (BinOp OPS.land (Bool true) (Bool false))) = None /\
  format format_fields AstFormatter_init
         (BinOp OPS.land (Bool true) (Bool false)) = Ok [].
Proof. repeat split; vm_compute; reflexivity. Qed.

(** C5 on the bare document. *)
Lemma emitters_builtins_then_userdefined_witness :
  Codec_init unicodedata_excerpt 1000 bare_document = Ok bare_codec /\
  emitters bare_codec =
  [py "DEC"; py "HEX"; py "NOP"; py "IDENTITY"] ++
  userdefined_emitters_of bare_document.
Proof.
  assert (H : Codec_init unicodedata_excerpt 1000 bare_document = Ok bare_codec)
    by (vm_compute; reflexivity).
  split; [exact H |].
  apply (emitters_builtins_then_userdefined unicodedata_excerpt 1000
           bare_document bare_codec H).
Defined.

(** C5 as stated fails: the bare codec uses no builtin and declares no
    emitter, and [DEC] is among its emitters. *)
Lemma unused_builtin_is_exposed :
  Codec_init unicodedata_excerpt 1000 bare_document = Ok bare_codec /\
  used_builtins (ast bare_codec) = [] /\
  _userdefined_emitters bare_codec = [] /\
  emitters bare_codec = [py "DEC"; py "HEX"; py "NOP"; py "IDENTITY"].
Proof. repeat split; vm_compute; reflexivity. Qed.

(** C6 on the encoder that holds the bare html codec: a second html
    codec is refused. *)
Lemma add_duplicate_target_rejected_witness :
  reachable html_encoder /\
  target hex_codec = JStr (py "html") /\
  In (JStr (py "html")) (map target (codecs html_encoder)) /\
  add html_encoder (ACodec hex_codec) = (html_encoder, Raise ValueError) /\
  codecs (fst (add html_encoder (ACodec hex_codec))) = [bare_codec] /\
  length (codecs_for (py "html") (fst (add html_encoder (ACodec hex_codec)))) =
  1%nat.
Proof.
  assert (Hr : reachable html_encoder) by (apply reach_add, reach_init).
  assert (Hin : In (JStr (py "html")) (map target (codecs html_encoder)))
    by (left; reflexivity).
  split; [exact Hr | split; [reflexivity | split; [exact Hin |]]].
  exact (add_duplicate_target_rejected html_encoder hex_codec (py "html")
           Hr eq_refl Hin).
Defined.

(** C7 on [(a-z)]. *)
Lemma parseGuard_range_witness :
  range_text (Literal 97) (Literal 122) = py "(a-z)" /\
  operand_ok (Literal 97) = true /\ operand_ok (Literal 122) = true /\
  97 <= 122 /\
  parseGuard unicodedata_excerpt (py "(a-z)") =
  Ok (Some (range_predicate 97 122)) /\
  forall p, holds p (range_predicate 97 122) = Some true <-> 97 <= p <= 122.
Proof.
  assert (Hle : 97 <= 122) by (intros H; discriminate H).
  split; [reflexivity | split; [reflexivity | split; [reflexivity |]]].
  split; [exact Hle |].
  exact (parseGuard_range unicodedata_excerpt (Literal 97) (Literal 122)
           eq_refl eq_refl Hle).
Defined.

(** C8 on the letter [a]. *)
Lemma literal_and_escapes_agree_witness :
  97 < 0x110000 /\
  parseGuard unicodedata_excerpt (py "a") = Ok (Some (eq_predicate 97)) /\
  parseGuard unicodedata_excerpt (py "U+000061") =
  Ok (Some (eq_predicate 97)) /\
  (97 < 0x10000 ->
   parseGuard unicodedata_excerpt (py "U+0061") =
   Ok (Some (eq_predicate 97))) /\
  forall p, holds p (eq_predicate 97) = Some true <-> p = 97.
Proof.
  split; [reflexivity |].
  exact (literal_and_escapes_agree unicodedata_excerpt true 97 eq_refl).
Defined.

(** C9 on two formatters whose templates were set in opposite orders. *)
Lemma format_deterministic_witness :
  (forall k, dict_get (_format_strings formatter_ab) k =
             dict_get (_format_strings formatter_ba) k) /\
  (forall c, escape_func formatter_ab c = escape_func formatter_ba c) /\
  format format_fields formatter_ab (If (Bool true) Nop Nop) =
  format format_fields formatter_ba (If (Bool true) Nop Nop).
Proof.
  assert (Hfs : forall k, dict_get (_format_strings formatter_ab) k =
                          dict_get (_format_strings formatter_ba) k).
  { intros k. unfold formatter_ab, formatter_ba, setattr, AstFormatter_init.
    cbn [_format_strings dict_set]. 
    change (pystr_eqb (py "If") (py "Nop")) with false.
    change (pystr_eqb (py "Nop") (py "If")) with false.
    cbn [dict_get].
    destruct (pystr_eqb k (py "Nop")) eqn:Hn,
             (pystr_eqb k (py "If")) eqn:Hi; try reflexivity.
    apply pystr_eqb_eq in Hn, Hi. rewrite Hn in Hi. discriminate Hi. }
  split; [exact Hfs | split; [reflexivity |]].
  exact (format_deterministic format_fields formatter_ab formatter_ba
           (If (Bool true) Nop Nop) Hfs (fun c => eq_refl)).
Defined.

(** C10 on [(a-b)x]. *)
Lemma parseGuard_range_ignores_trailing_witness :
  range_text (Literal 97) (Literal 98) ++ py "x" = py "(a-b)x" /\
  operand_ok (Literal 97) = true /\ operand_ok (Literal 98) = true /\
  97 <= 98 /\ py "x" <> [] /\
  parseGuard unicodedata_excerpt (py "(a-b)x") =
  Ok (Some (range_predicate 97 98)) /\
  parseGuard unicodedata_excerpt (py "(a-b)x") =
  parseGuard unicodedata_excerpt (py "(a-b)").
Proof.
  assert (Hle : 97 <= 98) by (intros H; discriminate H).
  assert (Hne : py "x" <> []) by (intros H; discriminate H).
  split; [reflexivity | split; [reflexivity | split; [reflexivity |]]].
  split; [exact Hle | split; [exact Hne |]].
  exact (parseGuard_range_ignores_trailing unicodedata_excerpt
           (Literal 97) (Literal 98) (py "x") eq_refl eq_refl Hle Hne).
Defined.

(** ** The embedding on sample inputs *)

Example parseGuard_samples :
  parseGuard unicodedata_excerpt (py "<") = Ok (Some (eq_predicate 60)) /\
  parseGuard unicodedata_excerpt (py "u+00e9") = Ok (Some (eq_predicate 233)) /\
  parseGuard unicodedata_excerpt (py "(U+0041-U+00005A)") =
  Ok (Some (range_predicate 65 90)) /\
  parseGuard unicodedata_excerpt (py "U+FFFFFF") = Raise ValueError /\
  parseGuard unicodedata_excerpt (py "U+10000") = Ok None /\
  parseGuard unicodedata_excerpt (py "a" ++ [10]) = Raise KeyError /\
  parseGuard unicodedata_excerpt [] = Ok None.
Proof. repeat split; vm_compute; reflexivity. Qed.

Example Codec_init_samples :
  Codec_init unicodedata_excerpt 1000 [(py "RULES", JList [])] =
  Raise KeyError /\
  Codec_init unicodedata_excerpt 1000
    [(py "TARGET", JStr (py "t"));
     (py "RULES", JList [rule_of (py "ab", JStr [])])]
  = Raise AttributeError /\
  Codec_init unicodedata_excerpt 1000
    [(py "TARGET", JStr (py "t")); (py "RULES", JList [JDict []])]
  = Raise TypeError /\
  Codec_init unicodedata_excerpt 1000
    [(py "TARGET", JStr (py "t"));
     (py "RULES", JList [rule_of (py "a", ref (py "UPPER"))])]
  = Raise ValueError.
Proof. repeat split; vm_compute; reflexivity. Qed.

Example render_samples :
  format format_fields sample_formatter
    (EmitterList [ConstantEmitter (py "&"); Builtin (py "HEX")]) =
  Ok (py "emit('&')HEX(c)") /\
  result_map (format format_fields sample_formatter)
    (result_map ast (Codec_init unicodedata_excerpt 1000 hex_document)) =
  Ok (Ok (py "if (true) { HEX(c) } else {  }")) /\
  format format_fields (setattr sample_formatter (py "Codepoint") (py "{"))
    (Codepoint 65) = Raise ValueError.
Proof. repeat split; vm_compute; reflexivity. Qed.

(** * Further properties *)

(** ** The encoder, continued *)

Lemma at_most_one_position (p : json -> bool) (l : list json) :
  (length (filter p l) <= 1)%nat ->
  forall i j x y,
    nth_error l i = Some x -> nth_error l j = Some y ->
    p x = true -> p y = true -> i = j.
Proof.
  induction l as [| t l IH]; intros Hlen i j x y Hi Hj Hx Hy.
  - destruct i; discriminate Hi.
  - cbn [filter] in Hlen.
    assert (Hnone : p t = true -> forall k z,
               nth_error l k = Some z -> p z = true -> False).
    { intros Ht k z Hk Hz. rewrite Ht in Hlen. cbn [length] in Hlen.
      assert (Hin : In z (filter p l))
        by (apply filter_In; split; [eapply nth_error_In; eauto | exact Hz]).
      destruct (filter p l); [destruct Hin | cbn in Hlen; lia]. }
    destruct i as [| i], j as [| j]; cbn [nth_error] in Hi, Hj.
    + reflexivity.
    + injection Hi as <-. exfalso. eapply Hnone; eauto.
    + injection Hj as <-. exfalso. eapply Hnone; eauto.
    + f_equal. apply (IH) with (x := x) (y := y); auto.
      destruct (p t); cbn [length] in Hlen; lia.
Qed.

(** X1: in every encoder reached from [Encoder()] by calls of [add],
    [_targets] lists the targets of [_codecs] in the same order, and no string
    is the target at two positions. *)
Theorem encoder_targets_invariant (e : Encoder) :
  reachable e ->
  _targets e = map target (_codecs e) /\
  forall i j name,
    nth_error (_targets e) i = Some (JStr name) ->
    nth_error (_targets e) j = Some (JStr name) ->
    i = j.
Proof.
  intros Hr. destruct (reachable_registry_ok e Hr) as [Ht Hn].
  split; [exact Ht |]. intros i j name Hi Hj.
  apply (at_most_one_position (py_eq (JStr name)) (_targets e) (Hn name)
           i j (JStr name) (JStr name) Hi Hj); now apply py_eq_str.
Qed.

Lemma encoder_targets_invariant_witness :
  reachable html_encoder /\
  _targets html_encoder = map target (_codecs html_encoder) /\
  forall i j name,
    nth_error (_targets html_encoder) i = Some (JStr name) ->
    nth_error (_targets html_encoder) j = Some (JStr name) ->
    i = j.
Proof.
  assert (Hr : reachable html_encoder) by (apply reach_add, reach_init).
  split; [exact Hr |]. exact (encoder_targets_invariant html_encoder Hr).
Defined.

(** X2: no call of [add], accepted or refused, removes or moves a codec:
    after any run of calls the codecs the encoder had are still the first
    ones it lists, in their order, and a run adds at most one codec per
    call. *)
Theorem add_all_keeps_codecs (e : Encoder) (os : list pyobj) :
  exists tail,
    codecs (add_all e os) = codecs e ++ tail /\
    (length tail <= length os)%nat.
Proof.
  revert e. induction os as [| o os IH]; intros e.
  - exists []. cbn. now rewrite app_nil_r.
  - cbn [add_all fold_left]. fold (add_all (fst (add e o)) os).
    destruct (IH (fst (add e o))) as (tail & Htail & Hlen).
    assert (Hone : exists t1, codecs (fst (add e o)) = codecs e ++ t1 /\
                              (length t1 <= 1)%nat).
    { destruct o as [c |]; cbn [add];
        [| exists []; rewrite app_nil_r; split; [reflexivity | cbn; lia]].
      destruct (negb (existsb (py_eq (target c)) (_targets e))); cbn [fst].
      - exists [c]. split; [reflexivity | cbn; lia].
      - exists []. rewrite app_nil_r. split; [reflexivity | cbn; lia]. }
    destruct Hone as (t1 & Ht1 & Hl1).
    exists (t1 ++ tail). rewrite Htail, Ht1, <- app_assoc.
    split; [reflexivity |]. rewrite length_app. cbn [length]. lia.
Qed.

Lemma add_all_fresh (cs : list Codec) :
  forall e,
    _targets e = map target (_codecs e) ->
    Forall string_target cs ->
    NoDup (map target (_codecs e) ++ map target cs) ->
    codecs (add_all e (map ACodec cs)) = codecs e ++ cs.
Proof.
  induction cs as [| c cs IH]; intros e Ht Hstr Hnd.
  - cbn. now rewrite app_nil_r.
  - inversion Hstr as [| ? ? [name Hname] Hstr']; subst.
    cbn [map add_all fold_left]. fold (add_all (fst (add e (ACodec c)))
                                               (map ACodec cs)).
    assert (Hfresh : existsb (py_eq (target c)) (_targets e) = false).
    { destruct (existsb (py_eq (target c)) (_targets e)) eqn:Hex;
        [| reflexivity].
      apply existsb_exists in Hex. destruct Hex as (t & Hin & Heq).
      rewrite Hname in Heq. apply py_eq_str in Heq. subst t.
      rewrite Ht, <- Hname in Hin.
      cbn [map] in Hnd. apply NoDup_remove_2 in Hnd.
      exfalso. apply Hnd. apply in_or_app. now left. }
    unfold add at 1. rewrite Hfresh. cbn [negb fst].
    rewrite IH; cbn [_codecs _targets codecs].
    + now rewrite <- app_assoc.
    + rewrite map_app, Ht. reflexivity.
    + exact Hstr'.
    + rewrite map_app. cbn [map] in *. rewrite <- app_assoc. exact Hnd.
Qed.

(** X3: codecs with pairwise different string targets, added in turn to
    a new encoder, are all accepted, and the encoder lists exactly them in
    the order they were added. *)
Theorem add_all_distinct_targets (cs : list Codec) :
  Forall string_target cs ->
  NoDup (map target cs) ->
  codecs (add_all Encoder_init (map ACodec cs)) = cs.
Proof.
  intros Hstr Hnd.
  now rewrite (add_all_fresh cs Encoder_init eq_refl Hstr Hnd).
Qed.

Lemma add_all_distinct_targets_witness :
  Forall string_target [bare_codec; css_codec] /\
  NoDup (map target [bare_codec; css_codec]) /\
  codecs (add_all Encoder_init (map ACodec [bare_codec; css_codec])) =
  [bare_codec; css_codec].
Proof.
  assert (Hstr : Forall string_target [bare_codec; css_codec])
    by (repeat constructor; eexists; reflexivity).
  assert (Hnd : NoDup (map target [bare_codec; css_codec])).
  { repeat constructor; cbn; [intros [H | []]; discriminate H | tauto]. }
  split; [exact Hstr | split; [exact Hnd |]].
  exact (add_all_distinct_targets [bare_codec; css_codec] Hstr Hnd).
Defined.

(** ** Resolution of emitter names, continued *)

Lemma mapM_Ok_Forall {A B} (f : A -> result B) (P : B -> Prop) (l : list A) :
  (forall x y, In x l -> f x = Ok y -> P y) ->
  forall ys, mapM f l = Ok ys -> Forall P ys.
Proof.
  induction l as [| a l IH]; cbn [mapM]; intros H ys Hm.
  - injection Hm as <-. constructor.
  - destruct (f a) as [y |] eqn:Ha; cbn [bind] in Hm; [| discriminate].
    destruct (mapM f l) as [ys' |] eqn:Hl; cbn [bind] in Hm; [| discriminate].
    injection Hm as <-. constructor.
    + apply (H a y); [now left | exact Ha].
    + apply IH; [| reflexivity]. intros x z Hx. apply H. now right.
Qed.

Lemma mapM_stable {A B} (f g : A -> result B) (l : list A) :
  (forall x r, f x = r -> r <> Raise RecursionError -> g x = r) ->
  forall r, mapM f l = r -> r <> Raise RecursionError -> mapM g l = r.
Proof.
  intros H. induction l as [| a l IH]; cbn [mapM]; intros r Hm Hr;
    [exact Hm |].
  destruct (f a) as [y | e] eqn:Ha; cbn [bind] in Hm.
  - rewrite (H a (Ok y) Ha) by discriminate. cbn [bind].
    destruct (mapM f l) as [ys | e] eqn:Hl; cbn [bind] in Hm.
    + rewrite (IH (Ok ys) eq_refl) by discriminate. exact Hm.
    + rewrite (IH (Raise e) eq_refl); [exact Hm |].
      intros He. apply Hr. rewrite <- Hm. exact He.
  - rewrite (H a (Raise e) Ha); [exact Hm |].
    intros [= He]. apply Hr. rewrite <- Hm. now rewrite He.
Qed.

Lemma emitter_tree_is_Emitter (n : AstNode) :
  emitter_tree n -> is_Emitter n = true.
Proof. now destruct 1. Qed.

Lemma In_builtin_emitters (name : pystr) :
  existsb (pystr_eqb name) _builtin_emitters = true <->
  In name _builtin_emitters.
Proof.
  rewrite existsb_exists. split.
  - intros (x & Hx & Heq). apply pystr_eqb_eq in Heq. now subst.
  - intros H. exists name. split; [exact H | apply pystr_eqb_refl].
Qed.

Lemma json_in_strs_iff (name : pystr) (names : list pystr) :
  json_in_strs (JStr name) names = true <-> In name names.
Proof.
  unfold json_in_strs. rewrite existsb_exists. split.
  - intros (x & Hx & Heq). apply pystr_eqb_eq in Heq. now subst.
  - intros H. exists name. split; [exact H | apply pystr_eqb_refl].
Qed.

Lemma dict_get_In_keys {V} (d : pydict V) (k : pystr) :
  dict_get d k <> None <-> In k (dict_keys d).
Proof.
  induction d as [| [k' v] d IH]; cbn [dict_get dict_keys map In fst].
  - split; [congruence | tauto].
  - destruct (pystr_eqb k k') eqn:Hk.
    + apply pystr_eqb_eq in Hk. subst. split; [now left | discriminate].
    + rewrite IH. unfold dict_keys. split; [now right |].
      intros [-> | H]; [| exact H].
      rewrite pystr_eqb_refl in Hk. discriminate Hk.
Qed.

Lemma userdefined_emitters_iff (doc : document) (name : pystr) :
  In name (userdefined_emitters_of doc) <->
  In name (dict_keys doc) /\ ~ In name _keywords.
Proof.
  unfold userdefined_emitters_of. rewrite filter_In, negb_true_iff.
  split; intros [Hk Hn]; (split; [exact Hk |]).
  - intros Hin.
    assert (existsb (pystr_eqb name) _keywords = true); [| congruence].
    apply existsb_exists. exists name. split; [exact Hin |].
    apply pystr_eqb_refl.
  - destruct (existsb (pystr_eqb name) _keywords) eqn:Hex; [| reflexivity].
    apply existsb_exists in Hex. destruct Hex as (x & Hx & Heq).
    apply pystr_eqb_eq in Heq. subst. contradiction.
Qed.

Section EmitterFacts2.

Variable doc : document.
Variable userdefined : list pystr.

Lemma parseEmitter_at_S (depth : nat) (emitter : json) :
  parseEmitter_at doc userdefined (S depth) emitter =
  match emitter with
  | JDict d =>
      match dict_get d (py "emitter") with
      | Some em =>
          if json_in_strs em userdefined then
            match em with
            | JStr name =>
                match dict_get doc name with
                | Some definition =>
                    xs <- py_iter definition ;;
                    emitter_list <-
                      mapM (parseEmitter_at doc userdefined depth) xs ;;
                    EmitterList_init emitter_list
                | None => Raise KeyError
                end
            | _ => Raise KeyError
            end
          else Builtin_init em
      | None => Raise ValueError
      end
  | JStr s => Ok (ConstantEmitter s)
  | _ => Raise ValueError
  end.
Proof. reflexivity. Qed.

Lemma parseEmitter_at_tree (depth : nat) :
  forall emitter n,
    parseEmitter_at doc userdefined depth emitter = Ok n -> emitter_tree n.
Proof.
  induction depth as [| d IH]; intros emitter n H; [discriminate H |].
  rewrite parseEmitter_at_S in H.
  destruct emitter as [| | | s | | dct]; try discriminate H.
  - injection H as <-. constructor.
  - destruct (dict_get dct (py "emitter")) as [em |]; [| discriminate H].
    destruct (json_in_strs em userdefined).
    + destruct em as [| | | name | |]; try discriminate H.
      destruct (dict_get doc name) as [definition |]; [| discriminate H].
      apply bind_Ok in H. destruct H as (xs & _ & H).
      apply bind_Ok in H. destruct H as (ys & Hm & H).
      unfold EmitterList_init in H.
      destruct (forallb is_Emitter ys); [| discriminate H].
      injection H as <-. constructor.
      apply (mapM_Ok_Forall (parseEmitter_at doc userdefined d)
                            emitter_tree xs); [| exact Hm].
      intros x y _. apply IH.
    + unfold Builtin_init in H.
      destruct em as [| | | name | |]; try discriminate H.
      destruct (existsb (pystr_eqb name) _builtin_emitters) eqn:Hb;
        [| discriminate H].
      injection H as <-. constructor. now apply In_builtin_emitters.
Qed.

Lemma parseEmitter_at_stable (depth : nat) :
  forall emitter r,
    parseEmitter_at doc userdefined depth emitter = r ->
    r <> Raise RecursionError ->
    parseEmitter_at doc userdefined (S depth) emitter = r.
Proof.
  induction depth as [| d IH]; intros emitter r H Hr;
    [cbn in H; congruence |].
  rewrite parseEmitter_at_S in H. rewrite parseEmitter_at_S.
  destruct emitter as [| | | s | | dct]; try exact H.
  destruct (dict_get dct (py "emitter")) as [em |]; [| exact H].
  destruct (json_in_strs em userdefined); [| exact H].
  destruct em as [| | | name | |]; try exact H.
  destruct (dict_get doc name) as [definition |]; [| exact H].
  destruct (py_iter definition) as [xs |]; cbn [bind] in *; [| exact H].
  destruct (mapM (parseEmitter_at doc userdefined d) xs) as [ys | e] eqn:Hm;
    cbn [bind] in H.
  - rewrite (mapM_stable _ (parseEmitter_at doc userdefined (S d)) xs IH
               (Ok ys) Hm) by discriminate.
    exact H.
  - rewrite (mapM_stable _ (parseEmitter_at doc userdefined (S d)) xs IH
               (Raise e) Hm); [exact H |].
    intros [= He]. apply Hr. rewrite <- H. now rewrite He.
Qed.

Lemma parseEmitter_at_le (d d' : nat) (emitter : json) (r : result AstNode) :
  (d <= d')%nat ->
  parseEmitter_at doc userdefined d emitter = r ->
  r <> Raise RecursionError ->
  parseEmitter_at doc userdefined d' emitter = r.
Proof.
  induction 1 as [| d' _ IH]; intros H Hr; [exact H |].
  apply parseEmitter_at_stable; auto.
Qed.

Lemma mapM_constants (depth : nat) (consts : list pystr) :
  mapM (parseEmitter_at doc userdefined (S depth)) (map JStr consts) =
  Ok (map ConstantEmitter consts).
Proof.
  induction consts as [| s consts IH]; [reflexivity |].
  cbn [map mapM]. rewrite parseEmitter_at_S. cbn [bind].
  now rewrite IH.
Qed.

End EmitterFacts2.

(** X4: whatever [parseEmitter] returns is an emitter tree: a builtin
    with one of the four builtin names, a constant, or a list of emitter
    trees; so the result is an [Emitter], as the setters of [If] and of
    [EmitterList] expect. *)
Theorem parseEmitter_returns_emitter_tree (depth : nat) (doc : document)
    (userdefined : list pystr) (emitter : json) (n : AstNode) :
  parseEmitter depth doc userdefined emitter = Ok n ->
  emitter_tree n /\ is_Emitter n = true.
Proof.
  intros H. apply parseEmitter_at_tree in H.
  split; [exact H | now apply emitter_tree_is_Emitter].
Qed.

(** X5: what [parseEmitter] does on a stack of some depth, result or
    exception other than [RecursionError], it does on every deeper stack. *)
Theorem parseEmitter_deeper_stack (d d' : nat) (doc : document)
    (userdefined : list pystr) (emitter : json) (r : result AstNode) :
  (d <= d')%nat ->
  parseEmitter d doc userdefined emitter = r ->
  r <> Raise RecursionError ->
  parseEmitter d' doc userdefined emitter = r.
Proof. unfold parseEmitter. apply parseEmitter_at_le. Qed.

(** X6: a reference to a name that is no builtin and no user-defined
    emitter of the document (a key it does not have, or one of [TARGET],
    [RULES] and [DEFAULT-EMITTER]) raises [ValueError]. *)
Theorem parseEmitter_unknown_name (depth : nat) (doc : document)
    (name : pystr) :
  In name _keywords \/ dict_get doc name = None ->
  ~ In name _builtin_emitters ->
  parseEmitter (S depth) doc (userdefined_emitters_of doc) (ref name) =
  Raise ValueError.
Proof.
  intros Hname Hnb. unfold parseEmitter, ref.
  rewrite parseEmitter_at_S, dict_get_ref.
  assert (Hud : json_in_strs (JStr name) (userdefined_emitters_of doc) = false).
  { destruct (json_in_strs (JStr name) (userdefined_emitters_of doc)) eqn:Hin;
      [| reflexivity].
    apply json_in_strs_iff, userdefined_emitters_iff in Hin.
    destruct Hin as [Hkey Hnk]. destruct Hname as [Hk | Hnone];
      [contradiction |].
    apply dict_get_In_keys in Hkey. contradiction. }
  rewrite Hud. unfold Builtin_init.
  destruct (existsb (pystr_eqb name) _builtin_emitters) eqn:Hb; [| reflexivity].
  apply In_builtin_emitters in Hb. contradiction.
Qed.

(** X7: a user-defined emitter whose definition is a list of strings
    resolves to the list of those constants, also when its name is that of
    a builtin: the document's definition is looked at first. *)
Theorem parseEmitter_userdefined_constants (depth : nat) (doc : document)
    (name : pystr) (consts : list pystr) :
  In name (userdefined_emitters_of doc) ->
  dict_get doc name = Some (JList (map JStr consts)) ->
  parseEmitter (S (S depth)) doc (userdefined_emitters_of doc) (ref name) =
  Ok (EmitterList (map ConstantEmitter consts)).
Proof.
  intros Hud Hdef. unfold parseEmitter, ref.
  rewrite parseEmitter_at_S, dict_get_ref.
  rewrite (proj2 (json_in_strs_iff name _) Hud), Hdef. cbn [py_iter bind].
  rewrite mapM_constants. cbn [bind]. unfold EmitterList_init.
  assert (Hall : forallb is_Emitter (map ConstantEmitter consts) = true)
    by (rewrite forallb_forall; intros x Hx; apply in_map_iff in Hx;
        destruct Hx as (s & <- & _); reflexivity).
  now rewrite Hall.
Qed.

Lemma parseEmitter_returns_emitter_tree_witness :
  parseEmitter 3 nested_document (userdefined_emitters_of nested_document)
               (ref (py "A")) =
  Ok (EmitterList [EmitterList [ConstantEmitter (py "x")]]) /\
  emitter_tree (EmitterList [EmitterList [ConstantEmitter (py "x")]]) /\
  is_Emitter (EmitterList [EmitterList [ConstantEmitter (py "x")]]) = true.
Proof.
  assert (H : parseEmitter 3 nested_document
                (userdefined_emitters_of nested_document) (ref (py "A")) =
              Ok (EmitterList [EmitterList [ConstantEmitter (py "x")]]))
    by (vm_compute; reflexivity).
  split; [exact H |].
  exact (parseEmitter_returns_emitter_tree 3 nested_document
           (userdefined_emitters_of nested_document) (ref (py "A")) _ H).
Defined.

Lemma parseEmitter_deeper_stack_witness :
  (3 <= 1000)%nat /\
  parseEmitter 3 nested_document (userdefined_emitters_of nested_document)
               (ref (py "A")) =
  Ok (EmitterList [EmitterList [ConstantEmitter (py "x")]]) /\
  Ok (EmitterList [EmitterList [ConstantEmitter (py "x")]]) <>
  Raise RecursionError /\
  parseEmitter 1000 nested_document (userdefined_emitters_of nested_document)
               (ref (py "A")) =
  Ok (EmitterList [EmitterList [ConstantEmitter (py "x")]]).
Proof.
  assert (Hle : (3 <= 1000)%nat) by (apply Nat.leb_le; reflexivity).
  assert (H : parseEmitter 3 nested_document
                (userdefined_emitters_of nested_document) (ref (py "A")) =
              Ok (EmitterList [EmitterList [ConstantEmitter (py "x")]]))
    by (vm_compute; reflexivity).
  assert (Hr : Ok (EmitterList [EmitterList [ConstantEmitter (py "x")]]) <>
               Raise RecursionError) by discriminate.
  split; [exact Hle | split; [exact H | split; [exact Hr |]]].
  exact (parseEmitter_deeper_stack 3 1000 nested_document
           (userdefined_emitters_of nested_document) (ref (py "A")) _
           Hle H Hr).
Defined.

Lemma parseEmitter_unknown_name_witness :
  (In (py "RULES") _keywords \/
   dict_get selfref_document (py "RULES") = None) /\
  ~ In (py "RULES") _builtin_emitters /\
  parseEmitter 1000 selfref_document
    (userdefined_emitters_of selfref_document) (ref (py "RULES")) =
  Raise ValueError.
Proof.
  assert (Hk : In (py "RULES") _keywords \/
               dict_get selfref_document (py "RULES") = None)
    by (left; right; left; reflexivity).
  assert (Hnb : ~ In (py "RULES") _builtin_emitters)
    by (intros [H | [H | [H | [H | []]]]]; discriminate H).
  split; [exact Hk | split; [exact Hnb |]].
  exact (parseEmitter_unknown_name 999 selfref_document (py "RULES") Hk Hnb).
Defined.

Lemma parseEmitter_userdefined_constants_witness :
  In (py "HEX") _builtin_emitters /\
  In (py "HEX") (userdefined_emitters_of shadow_document) /\
  dict_get shadow_document (py "HEX") = Some (JList (map JStr [py "0x"])) /\
  parseEmitter 1000 shadow_document (userdefined_emitters_of shadow_document)
               (ref (py "HEX")) =
  Ok (EmitterList (map ConstantEmitter [py "0x"])).
Proof.
  assert (Hud : In (py "HEX") (userdefined_emitters_of shadow_document))
    by (left; reflexivity).
  split; [right; left; reflexivity | split; [exact Hud |]].
  split; [reflexivity |].
  exact (parseEmitter_userdefined_constants 998 shadow_document (py "HEX")
           [py "0x"] Hud eq_refl).
Defined.

(** ** The formatter, continued *)

Lemma dict_get_dict_set {V} (d : pydict V) (k k' : pystr) (v : V) :
  dict_get (dict_set d k v) k' =
  if pystr_eqb k' k then Some v else dict_get d k'.
Proof.
  induction d as [| [k0 v0] d IH]; cbn [dict_set dict_get]; [reflexivity |].
  destruct (pystr_eqb k k0) eqn:Hk; cbn [dict_get].
  - apply pystr_eqb_eq in Hk. subst k0.
    destruct (pystr_eqb k' k); reflexivity.
  - rewrite IH.
    destruct (pystr_eqb k' k0) eqn:Hk0, (pystr_eqb k' k) eqn:Hk';
      try reflexivity.
    apply pystr_eqb_eq in Hk0, Hk'. subst.
    rewrite pystr_eqb_refl in Hk. discriminate Hk.
Qed.

Lemma getFstring_dispatch (self : AstFormatter) (node : AstNode) :
  getFstring self node =
  match dict_get (_format_strings self) (dispatch_key node) with
  | Some fs => Ok fs
  | None => if is_Guard node then Ok [] else Raise KeyError
  end.
Proof. destruct node as [| | | [|] | | | | |]; reflexivity. Qed.

Lemma setattr_then_getFstring_aux (self : AstFormatter) (name value : pystr)
    (node : AstNode) :
  (dispatch_key node = name ->
   getFstring (setattr self name value) node = Ok value) /\
  (dispatch_key node <> name ->
   getFstring (setattr self name value) node = getFstring self node) /\
  escape_func (setattr self name value) = escape_func self.
Proof.
  rewrite !getFstring_dispatch. cbn [setattr _format_strings escape_func].
  rewrite dict_get_dict_set. repeat split.
  - intros ->. now rewrite pystr_eqb_refl.
  - intros Hne. destruct (pystr_eqb (dispatch_key node) name) eqn:Hk;
      [| reflexivity].
    apply pystr_eqb_eq in Hk. contradiction.
Qed.

(** X8: a template set on the formatter, under a name that is none of
    the formatter's own attributes, is the one [getFstring] finds for the
    nodes of that key, whatever was set before; the templates of all other
    keys and the escape function are as before. *)
Theorem setattr_then_getFstring (self : AstFormatter) (name value : pystr)
    (node : AstNode) :
  ~ In name own_attributes ->
  (dispatch_key node = name ->
   getFstring (setattr self name value) node = Ok value) /\
  (dispatch_key node <> name ->
   getFstring (setattr self name value) node = getFstring self node) /\
  escape_func (setattr self name value) = escape_func self.
Proof. intros _. apply setattr_then_getFstring_aux. Qed.

Lemma setattr_then_getFstring_witness :
  ~ In (py "Nop") own_attributes /\
  dispatch_key Nop = py "Nop" /\
  getFstring (setattr sample_formatter (py "Nop") (py "pass")) Nop =
  Ok (py "pass") /\
  dispatch_key Candidate <> py "Nop" /\
  getFstring (setattr sample_formatter (py "Nop") (py "pass")) Candidate =
  getFstring sample_formatter Candidate.
Proof.
  assert (Hown : ~ In (py "Nop") own_attributes)
    by (intros [H | [H | [H | []]]]; discriminate H).
  assert (Hne : dispatch_key Candidate <> py "Nop") by discriminate.
  split; [exact Hown | split; [reflexivity |]].
  split;
    [exact (proj1 (setattr_then_getFstring sample_formatter (py "Nop")
                     (py "pass") Nop Hown) eq_refl) |].
  split; [exact Hne |].
  exact (proj1 (proj2 (setattr_then_getFstring sample_formatter (py "Nop")
                         (py "pass") Candidate Hown)) Hne).
Defined.

Section FormatterFacts2.

Variable str_format :
  pystr -> list fmtarg -> list (pystr * fmtarg) -> result pystr.

(** Rendering looks at the templates of the nodes it visits, lists
    apart, and at nothing else of the formatter's templates. *)
Lemma visit_ext_on (f1 f2 : AstFormatter) :
  (forall c, escape_func f1 c = escape_func f2 c) ->
  forall node,
    (forall n, In n (walk node) -> (forall l, n <> EmitterList l) ->
               getFstring f1 n = getFstring f2 n) ->
    visit str_format f1 node = visit str_format f2 node.
Proof.
  intros Hesc.
  induction node
    as [c | | op a b IHa IHb | b | | name | s | l IHl | c t f IHc IHt IHf]
    using AstNode_nested_ind;
    intros H; cbn [visit].
  - now rewrite (H (Codepoint c)) by (cbn; intuition discriminate).
  - apply H; cbn; intuition discriminate.
  - rewrite (H (BinOp op a b)) by (cbn; intuition discriminate).
    rewrite IHa, IHb; [reflexivity | |];
      intros n Hn; apply H; cbn [walk]; right; apply in_or_app; auto.
  - apply H; cbn; intuition discriminate.
  - apply H; cbn; intuition discriminate.
  - now rewrite (H (Builtin name)) by (cbn; intuition discriminate).
  - rewrite (H (ConstantEmitter s)) by (cbn; intuition discriminate).
    now rewrite (map_ext _ _ Hesc).
  - rewrite (mapM_ext_in (visit str_format f1) (visit str_format f2) l);
      [reflexivity |].
    intros x Hx. rewrite Forall_forall in IHl. apply (IHl x Hx).
    intros n Hn. apply H. cbn [walk]. right. apply in_flat_map. eauto.
  - rewrite (H (If c t f)) by (cbn; intuition discriminate).
    rewrite IHc, IHt, IHf; [reflexivity | | |];
      intros n Hn; apply H; cbn [walk]; right;
      repeat (apply in_or_app; auto; right); auto.
Qed.

Lemma mapM_all_Ok {A B} (f : A -> result B) (l : list A) :
  (forall x, In x l -> exists y, f x = Ok y) -> exists ys, mapM f l = Ok ys.
Proof.
  induction l as [| a l IH]; intros H; cbn [mapM]; [now exists [] |].
  destruct (H a) as (y & ->); [now left |].
  destruct IH as (ys & ->); [intros x Hx; apply H; now right |].
  cbn [bind]. eauto.
Qed.

Lemma mapM_visit_app (self : AstFormatter) (l1 l2 : list AstNode) :
  visit str_format self (EmitterList (l1 ++ l2)) =
  (a <- visit str_format self (EmitterList l1) ;;
   b <- visit str_format self (EmitterList l2) ;;
   Ok (a ++ b)).
Proof.
  cbn [visit]. rewrite mapM_app.
  destruct (mapM (visit str_format self) l1) as [s1 |]; cbn [bind];
    [| reflexivity].
  destruct (mapM (visit str_format self) l2) as [s2 |]; cbn [bind];
    [| reflexivity].
  now rewrite concat_app.
Qed.

End FormatterFacts2.

(** X9: setting the template of a key changes no render of a tree that
    has no node of that key; the key of an [EmitterList] does not count,
    since a list is rendered without a template. *)
Theorem setattr_leaves_other_renders
    (str_format : pystr -> list fmtarg -> list (pystr * fmtarg) -> result pystr)
    (self : AstFormatter) (name value : pystr) (node : AstNode) :
  ~ In name own_attributes ->
  (forall n, In n (walk node) -> (forall l, n <> EmitterList l) ->
             dispatch_key n <> name) ->
  format str_format (setattr self name value) node =
  format str_format self node.
Proof.
  intros _ H. unfold format. apply visit_ext_on; [reflexivity |].
  intros n Hn Hl.
  apply (proj1 (proj2 (setattr_then_getFstring_aux self name value n))).
  now apply H.
Qed.

Lemma setattr_leaves_other_renders_witness :
  ~ In (py "Builtin") own_attributes /\
  (forall n, In n (walk (If (Bool true) Nop Nop)) ->
             (forall l, n <> EmitterList l) ->
             dispatch_key n <> py "Builtin") /\
  format format_fields
         (setattr sample_formatter (py "Builtin") (py "{builtin}"))
         (If (Bool true) Nop Nop) =
  format format_fields sample_formatter (If (Bool true) Nop Nop).
Proof.
  assert (Hown : ~ In (py "Builtin") own_attributes)
    by (intros [H | [H | [H | []]]]; discriminate H).
  assert (H : forall n, In n (walk (If (Bool true) Nop Nop)) ->
                        (forall l, n <> EmitterList l) ->
                        dispatch_key n <> py "Builtin").
  { intros n Hn _. cbn in Hn.
    repeat (destruct Hn as [<- | Hn]; [discriminate |]). destruct Hn. }
  split; [exact Hown | split; [exact H |]].
  exact (setattr_leaves_other_renders format_fields sample_formatter
           (py "Builtin") (py "{builtin}") (If (Bool true) Nop Nop) Hown H).
Defined.

(** X10: an [EmitterList] renders as its elements' renders one after the
    other: the empty list as the empty string, a list of one element as
    that element, and a list made of two parts as the first part's render
    followed by the second's, the first exception met being the result. *)
Theorem visit_EmitterList_concatenates
    (str_format : pystr -> list fmtarg -> list (pystr * fmtarg) -> result pystr)
    (self : AstFormatter) (n : AstNode) (l1 l2 : list AstNode) :
  visit str_format self (EmitterList []) = Ok [] /\
  visit str_format self (EmitterList [n]) = visit str_format self n /\
  visit str_format self (EmitterList (l1 ++ l2)) =
  (a <- visit str_format self (EmitterList l1) ;;
   b <- visit str_format self (EmitterList l2) ;;
   Ok (a ++ b)).
Proof.
  split; [reflexivity | split; [| apply mapM_visit_app]].
  cbn [visit mapM].
  destruct (visit str_format self n) as [y |]; cbn [bind concat];
    [| reflexivity].
  now rewrite app_nil_r.
Qed.

Lemma escaped_cons (c : N) (s : pystr) :
  escaped (c :: s) = (if c =? 92 then [92; 92] else [c]) ++ escaped s.
Proof. reflexivity. Qed.

Lemma unescape_escaped (s : pystr) : unescape (escaped s) = s.
Proof.
  induction s as [| c s IH]; [reflexivity |].
  rewrite escaped_cons. destruct (c =? 92) eqn:Hc.
  - apply N.eqb_eq in Hc. subst c. cbn [app unescape].
    rewrite N.eqb_refl. now rewrite IH.
  - cbn [app unescape]. rewrite Hc. now rewrite IH.
Qed.

(** X11: the escape function of a new formatter loses nothing: the text
    [visit_ConstantEmitter] hands to the template reads back to the
    constant's string by taking each doubled backslash for one, so two
    constants with the same escaped text are the same. *)
Theorem default_escape_reads_back (s : pystr) :
  unescape (escaped s) = s /\
  forall s', escaped s = escaped s' -> s = s'.
Proof.
  split; [apply unescape_escaped |].
  intros s' H. rewrite <- (unescape_escaped s), <- (unescape_escaped s').
  now rewrite H.
Qed.

Lemma walk_head (n : AstNode) : In n (walk n).
Proof. rewrite walk_children. now left. Qed.

Lemma walk_trans (n : AstNode) :
  forall m k, In m (walk n) -> In k (walk m) -> In k (walk n).
Proof.
  induction n
    as [c | | op a b IHa IHb | b | | name | s | l IHl | c t f IHc IHt IHf]
    using AstNode_nested_ind;
    intros m k Hm Hk; cbn [walk] in Hm |- *;
    try (destruct Hm as [<- | []]; exact Hk).
  - destruct Hm as [<- | Hm]; [exact Hk |]. right.
    apply in_app_or in Hm. apply in_or_app.
    destruct Hm as [Hm | Hm]; [left | right]; eauto.
  - destruct Hm as [<- | Hm]; [exact Hk |]. right.
    apply in_flat_map in Hm. destruct Hm as (x & Hx & Hm).
    apply in_flat_map. exists x. split; [exact Hx |].
    rewrite Forall_forall in IHl. eapply IHl; eauto.
  - destruct Hm as [<- | Hm]; [exact Hk |]. right.
    apply in_app_or in Hm. apply in_or_app.
    destruct Hm as [Hm | Hm]; [left; eauto | right].
    apply in_app_or in Hm. apply in_or_app.
    destruct Hm as [Hm | Hm]; [left | right]; eauto.
Qed.

(** X12: [walk] yields the node first, and it is closed under descent:
    whatever the walk of a yielded node yields, the walk of the node
    yields. *)
Theorem walk_yields_descendants (n : AstNode) :
  hd_error (walk n) = Some n /\
  forall m k, In m (walk n) -> In k (walk m) -> In k (walk n).
Proof.
  split; [now rewrite walk_children | apply walk_trans].
Qed.

Lemma getFstring_of_mem (self : AstFormatter) (node : AstNode) :
  (subscripted node = true ->
   dict_mem (_format_strings self) (class_name node) = true) ->
  (forall l, node <> EmitterList l) ->
  exists fs, getFstring self node = Ok fs.
Proof.
  intros H Hl. rewrite getFstring_dispatch.
  destruct (dict_get (_format_strings self) (dispatch_key node)) eqn:Hd;
    [eauto |].
  destruct node; cbn [is_Guard]; eauto;
    try (specialize (H eq_refl); unfold dict_mem in H;
         cbn [dispatch_key class_name] in *; rewrite Hd in H;
         discriminate H).
  exfalso. eapply Hl. reflexivity.
Qed.

(** X13: rendering succeeds when the formatter has a template for every
    node of the tree whose template is subscripted and [format] accepts
    each template with the arguments its [visit_*] method passes. *)
Theorem format_succeeds_with_complete_templates
    (str_format : pystr -> list fmtarg -> list (pystr * fmtarg) -> result pystr)
    (self : AstFormatter) (node : AstNode) :
  (forall n, In n (walk node) -> subscripted n = true ->
             dict_mem (_format_strings self) (class_name n) = true) ->
  (forall n fs nargs kws args kwargs,
      In n (walk node) -> getFstring self n = Ok fs ->
      call_shape n = Some (nargs, kws) ->
      length args = nargs -> map fst kwargs = kws ->
      exists s, str_format fs args kwargs = Ok s) ->
  exists out, format str_format self node = Ok out.
Proof.
  unfold format.
  induction node
    as [c | | op a b IHa IHb | b | | name | s | l IHl | c t f IHc IHt IHf]
    using AstNode_nested_ind;
    intros Hmem Hfmt; cbn [visit].
  - destruct (getFstring_of_mem self (Codepoint c)) as (fs & Hfs);
      [apply Hmem, walk_head | discriminate |].
    rewrite Hfs. cbn [bind].
    apply (Hfmt (Codepoint c) fs 0%nat
             [py "codepoint"]
             []
             [(py "codepoint", FInt c)]
             (walk_head _) Hfs); reflexivity.
  - apply getFstring_of_mem; [apply Hmem, walk_head | discriminate].
  - destruct (getFstring_of_mem self (BinOp op a b)) as (fs & Hfs);
      [apply Hmem, walk_head | discriminate |].
    rewrite Hfs. cbn [bind].
    destruct IHa as (ra & ->);
      [intros n Hn; apply Hmem; cbn [walk]; right; apply in_or_app; auto
      | intros n ? ? ? ? ? Hn; apply Hfmt; cbn [walk]; right;
        apply in_or_app; auto |].
    destruct IHb as (rb & ->);
      [intros n Hn; apply Hmem; cbn [walk]; right; apply in_or_app; auto
      | intros n ? ? ? ? ? Hn; apply Hfmt; cbn [walk]; right;
        apply in_or_app; auto |].
    cbn [bind].
    apply (Hfmt (BinOp op a b) fs 0%nat
             [py "operand1"; py "operand2"]
             []
             [(py "operand1", FStr ra); (py "operand2", FStr rb)]
             (walk_head _) Hfs); reflexivity.
  - apply getFstring_of_mem; [apply Hmem, walk_head | discriminate].
  - apply getFstring_of_mem; [apply Hmem, walk_head | discriminate].
  - destruct (getFstring_of_mem self (Builtin name)) as (fs & Hfs);
      [apply Hmem, walk_head | discriminate |].
    rewrite Hfs. cbn [bind].
    apply (Hfmt (Builtin name) fs 0%nat
             [py "builtin"]
             []
             [(py "builtin", FStr name)]
             (walk_head _) Hfs); reflexivity.
  - destruct (getFstring_of_mem self (ConstantEmitter s)) as (fs & Hfs);
      [apply Hmem, walk_head | discriminate |].
    rewrite Hfs. cbn [bind].
    apply (Hfmt (ConstantEmitter s) fs 1%nat
             []
             [FStr (concat (map (escape_func self) s))]
             []
             (walk_head _) Hfs); reflexivity.
  - destruct (mapM_all_Ok (visit str_format self) l) as (ys & ->);
      [| cbn [bind]; eauto].
    intros x Hx. rewrite Forall_forall in IHl. apply (IHl x Hx).
    + intros n Hn. apply Hmem. cbn [walk]. right. apply in_flat_map. eauto.
    + intros n ? ? ? ? ? Hn. apply Hfmt. cbn [walk]. right.
      apply in_flat_map. eauto.
  - destruct (getFstring_of_mem self (If c t f)) as (fs & Hfs);
      [apply Hmem, walk_head | discriminate |].
    rewrite Hfs. cbn [bind].
    destruct IHc as (rc & ->);
      [intros n Hn; apply Hmem; cbn [walk]; right; apply in_or_app; auto
      | intros n ? ? ? ? ? Hn; apply Hfmt; cbn [walk]; right;
        apply in_or_app; auto |].
    destruct IHt as (rt & ->);
      [intros n Hn; apply Hmem; cbn [walk]; right; apply in_or_app; right;
       apply in_or_app; auto
      | intros n ? ? ? ? ? Hn; apply Hfmt; cbn [walk]; right;
        apply in_or_app; right; apply in_or_app; auto |].
    destruct IHf as (rf & ->);
      [intros n Hn; apply Hmem; cbn [walk]; right; apply in_or_app; right;
       apply in_or_app; auto
      | intros n ? ? ? ? ? Hn; apply Hfmt; cbn [walk]; right;
        apply in_or_app; right; apply in_or_app; auto |].
    cbn [bind].
    apply (Hfmt (If c t f) fs 0%nat
             [py "condition"; py "iftrue"; py "iffalse"]
             []
             [(py "condition", FStr rc); (py "iftrue", FStr rt);
              (py "iffalse", FStr rf)]
             (walk_head _) Hfs); reflexivity.
Qed.

Lemma default_escape_reads_back_witness :
  escaped [97; 92; 98] = [97; 92; 92; 98] /\
  unescape (escaped [97; 92; 98]) = [97; 92; 98] /\
  (escaped [97; 92; 98] = escaped [97; 92; 98] -> [97; 92; 98] = [97; 92; 98]).
Proof.
  split; [reflexivity |].
  split; [exact (proj1 (default_escape_reads_back [97; 92; 98])) |].
  exact (proj2 (default_escape_reads_back [97; 92; 98]) [97; 92; 98]).
Defined.

Lemma walk_yields_descendants_witness :
  In (BinOp OPS.eq Candidate (Codepoint 60))
     (walk (If (eq_predicate 60) Nop Nop)) /\
  In (Codepoint 60) (walk (BinOp OPS.eq Candidate (Codepoint 60))) /\
  In (Codepoint 60) (walk (If (eq_predicate 60) Nop Nop)).
Proof.
  assert (Hm : In (BinOp OPS.eq Candidate (Codepoint 60))
                  (walk (If (eq_predicate 60) Nop Nop)))
    by (right; left; reflexivity).
  assert (Hk : In (Codepoint 60) (walk (BinOp OPS.eq Candidate (Codepoint 60))))
    by (right; right; left; reflexivity).
  split; [exact Hm | split; [exact Hk |]].
  exact (proj2 (walk_yields_descendants (If (eq_predicate 60) Nop Nop))
           _ _ Hm Hk).
Defined.

Lemma format_succeeds_with_complete_templates_witness :
  (forall n, In n (walk (If (Bool true) (Builtin (py "HEX")) Nop)) ->
             subscripted n = true ->
             dict_mem (_format_strings sample_formatter) (class_name n)
             = true) /\
  (forall n fs nargs kws args kwargs,
      In n (walk (If (Bool true) (Builtin (py "HEX")) Nop)) ->
      getFstring sample_formatter n = Ok fs ->
      call_shape n = Some (nargs, kws) ->
      length args = nargs -> map fst kwargs = kws ->
      exists s, format_fields fs args kwargs = Ok s) /\
  exists out,
    format format_fields sample_formatter
           (If (Bool true) (Builtin (py "HEX")) Nop) = Ok out.
Proof.
  assert (Hmem : forall n,
             In n (walk (If (Bool true) (Builtin (py "HEX")) Nop)) ->
             subscripted n = true ->
             dict_mem (_format_strings sample_formatter) (class_name n) = true).
  { intros n Hn Hs. cbn in Hn.
    repeat (destruct Hn as [<- | Hn];
            [first [discriminate Hs | vm_compute; reflexivity] |]).
    destruct Hn. }
  assert (Hfmt : forall n fs nargs kws args kwargs,
             In n (walk (If (Bool true) (Builtin (py "HEX")) Nop)) ->
             getFstring sample_formatter n = Ok fs ->
             call_shape n = Some (nargs, kws) ->
             length args = nargs -> map fst kwargs = kws ->
             exists s, format_fields fs args kwargs = Ok s).
  { intros n fs nargs kws args kwargs Hn Hfs Hcs Hlen Hkw. cbn in Hn.
    destruct Hn as [<- | [<- | [<- | [<- | []]]]];
      try discriminate Hcs;
      injection Hcs as <- <-; vm_compute in Hfs; injection Hfs as <-;
      destruct args; try discriminate Hlen.
    - destruct kwargs as [| [k1 v1] [| [k2 v2] [| [k3 v3] [| ? ?]]]];
        try discriminate Hkw.
      cbn in Hkw. injection Hkw as -> -> ->.
      eexists. cbv -[fmtarg_str app]. reflexivity.
    - destruct kwargs as [| [k1 v1] [| ? ?]]; try discriminate Hkw.
      cbn in Hkw. injection Hkw as ->.
      eexists. cbv -[fmtarg_str app]. reflexivity. }
  split; [exact Hmem | split; [exact Hfmt |]].
  exact (format_succeeds_with_complete_templates format_fields
           sample_formatter (If (Bool true) (Builtin (py "HEX")) Nop)
           Hmem Hfmt).
Defined.

(** ** What the guard patterns accept *)

Section MatcherFacts.

Variable dotall : bool.

Lemma steps_trans (a b c : re.mstate) (s t : pystr) :
  steps a b s -> steps b c t -> steps a c (s ++ t).
Proof.
  intros (Hr1 & Hp1 & Hg1) (Hr2 & Hp2 & Hg2). repeat split.
  - now rewrite Hr1, Hr2, app_assoc.
  - rewrite Hp2, Hp1, length_app. lia.
  - congruence.
Qed.

Lemma run_Lit_inv (c : N) (st st' : re.mstate) :
  In st' (re.run dotall (re.Lit c) st) -> steps st st' [c].
Proof.
  cbn [re.run]. destruct (re.rest st) as [| x xs] eqn:Hr; [intros [] |].
  destruct (x =? c) eqn:Hx; [| intros []].
  apply N.eqb_eq in Hx. subst x. intros [<- | []].
  unfold steps, re.advance. cbn. repeat split; [exact Hr | lia].
Qed.

Lemma run_Class_inv (ranges : list (N * N)) (st st' : re.mstate) :
  In st' (re.run dotall (re.Class ranges) st) ->
  exists x, re.in_class ranges x = true /\ steps st st' [x].
Proof.
  cbn [re.run]. destruct (re.rest st) as [| x xs] eqn:Hr; [intros [] |].
  destruct (re.in_class ranges x) eqn:Hx; [| intros []].
  intros [<- | []]. exists x. split; [exact Hx |].
  unfold steps, re.advance. cbn. repeat split; [exact Hr | lia].
Qed.

Lemma run_Cat_inv (r1 r2 : re.regex) (st st' : re.mstate) :
  In st' (re.run dotall (re.Cat r1 r2) st) ->
  exists m, In m (re.run dotall r1 st) /\ In st' (re.run dotall r2 m).
Proof. cbn [re.run]. apply in_flat_map. Qed.

Lemma run_Alt_inv (r1 r2 : re.regex) (st st' : re.mstate) :
  In st' (re.run dotall (re.Alt r1 r2) st) ->
  In st' (re.run dotall r1 st) \/ In st' (re.run dotall r2 st).
Proof. cbn [re.run]. apply in_app_or. Qed.

Lemma run_Bol_inv (st st' : re.mstate) :
  In st' (re.run dotall re.Bol st) -> st' = st.
Proof.
  cbn [re.run]. destruct (Nat.eqb (re.pos st) 0); [| intros []].
  now intros [<- | []].
Qed.

Lemma run_Eol_inv (st st' : re.mstate) :
  In st' (re.run dotall re.Eol st) ->
  st' = st /\ (re.rest st = [] \/ re.rest st = [10]).
Proof.
  cbn [re.run]. destruct (re.rest st) as [| x [| y xs]].
  - intros [<- | []]. auto.
  - destruct (x =? 10) eqn:Hx; [| intros []].
    apply N.eqb_eq in Hx. subst x. intros [<- | []]. auto.
  - intros [].
Qed.

(** A group over a pattern that closes no group records the text the
    pattern went over. *)
Lemma run_Group_inv (i : nat) (r : re.regex) (st st' : re.mstate) :
  In st' (re.run dotall (re.Group i r) st) ->
  forall P : pystr -> Prop,
    (forall m, In m (re.run dotall r st) -> exists s, P s /\ steps st m s) ->
    exists s, P s /\
      re.rest st = s ++ re.rest st' /\
      re.pos st' = (re.pos st + length s)%nat /\
      re.groups st' = (i, s) :: re.groups st.
Proof.
  cbn [re.run]. intros Hin P Hr. apply in_map_iff in Hin.
  destruct Hin as (m & <- & Hm).
  destruct (Hr m Hm) as (s & HP & Hrest & Hpos & Hgr).
  exists s. cbn. repeat split; auto.
  rewrite Hpos, Hrest, Hgr. f_equal. f_equal.
  replace (re.pos st + length s - re.pos st)%nat with (length s) by lia.
  rewrite firstn_app, Nat.sub_diag, firstn_all. cbn. apply app_nil_r.
Qed.

Lemma run_hexdigits_inv (n : nat) :
  forall st st',
    In st' (re.run dotall (re.Rep (S n) hexdigit) st) ->
    exists ds, length ds = S n /\ forallb is_hex ds = true /\ steps st st' ds.
Proof.
  induction n as [| n IH]; intros st st' Hin.
  - apply run_Class_inv in Hin. destruct Hin as (x & Hx & Hs).
    exists [x]. cbn [forallb]. unfold is_hex. rewrite Hx.
    split; [reflexivity | split; [reflexivity | exact Hs]].
  - change (re.Rep (S (S n)) hexdigit)
      with (re.Cat hexdigit (re.Rep (S n) hexdigit)) in Hin.
    apply run_Cat_inv in Hin. destruct Hin as (m & Hm & Hin).
    apply run_Class_inv in Hm. destruct Hm as (x & Hx & Hs).
    destruct (IH m st' Hin) as (ds & Hlen & Hhex & Hs').
    exists (x :: ds). cbn [forallb length]. unfold is_hex at 1.
    rewrite Hx, Hhex, Hlen.
    split; [reflexivity | split; [reflexivity |]].
    apply (steps_trans st m st' [x] ds Hs Hs').
Qed.

End MatcherFacts.

Lemma escape_shape (p : N) (ds : pystr) :
  p = 117 \/ p = 85 ->
  length ds = 4%nat \/ length ds = 6%nat ->
  forallb is_hex ds = true ->
  shape (Escape p ds).
Proof.
  intros Hp Hl Hh.
  destruct ds as [| d1 [| d2 [| d3 [| d4 [| d5 [| d6 [| d7 ds]]]]]]];
    cbn in Hl; try (destruct Hl; discriminate);
    cbn [forallb] in Hh; rewrite !andb_true_iff in Hh;
    constructor; tauto.
Qed.

Lemma run_escape_digits_inv (dotall : bool) (st st' : re.mstate) :
  In st' (re.run dotall (re.Alt (re.Rep 6 hexdigit) (re.Rep 4 hexdigit)) st) ->
  exists ds, (length ds = 4%nat \/ length ds = 6%nat) /\
             forallb is_hex ds = true /\ steps st st' ds.
Proof.
  intros Hin. apply run_Alt_inv in Hin.
  destruct Hin as [Hin | Hin]; apply run_hexdigits_inv in Hin;
    destruct Hin as (ds & Hlen & Hhex & Hs); exists ds; auto.
Qed.

Lemma run_u_or_U_inv (dotall : bool) (st st' : re.mstate) :
  In st' (re.run dotall u_or_U st) ->
  exists p, (p = 117 \/ p = 85) /\ steps st st' [p].
Proof.
  intros Hin. apply run_Alt_inv in Hin.
  destruct Hin as [Hin | Hin]; apply run_Lit_inv in Hin; eauto.
Qed.

Lemma run_range_side_inv (st st' : re.mstate) :
  In st' (re.run true range_side st) ->
  exists s, side_text s /\ steps st st' s.
Proof.
  intros Hin. apply run_Alt_inv in Hin. destruct Hin as [Hin | Hin].
  - apply run_Cat_inv in Hin. destruct Hin as (m1 & Hm1 & Hin).
    apply run_Cat_inv in Hin. destruct Hin as (m2 & Hm2 & Hin).
    apply run_u_or_U_inv in Hm1. destruct Hm1 as (p & Hp & Hs1).
    apply run_Lit_inv in Hm2.
    apply run_escape_digits_inv in Hin.
    destruct Hin as (ds & Hlen & Hhex & Hs3).
    exists (p :: 43 :: ds). split.
    + exists (Escape p ds). split; [now apply escape_shape | reflexivity].
    + apply (steps_trans st m1 st' [p] (43 :: ds) Hs1).
      apply (steps_trans m1 m2 st' [43] ds Hm2 Hs3).
  - cbn [re.run] in Hin. destruct (re.rest st) as [| x xs] eqn:Hr;
      [destruct Hin |].
    cbn [orb] in Hin. destruct Hin as [<- | []].
    exists [x]. split.
    + exists (Literal x). split; [constructor | reflexivity].
    + unfold steps, re.advance. cbn. repeat split; [exact Hr | lia].
Qed.

(** What [_range_regex] matches starts with a range, and its groups are
    the two sides. *)
Lemma range_match_inv (text : pystr) (rm : re.matchobj) :
  re.match_ true _range_regex text = Some rm ->
  exists A B tl,
    side_text A /\ side_text B /\
    text = 40 :: A ++ 45 :: B ++ 41 :: tl /\
    rm = [(2%nat, B); (1%nat, A)].
Proof.
  unfold re.match_.
  destruct (re.run true _range_regex (re.MState 0 text []))
    as [| st l] eqn:Hrun;
    [discriminate |].
  intros [= <-].
  assert (Hin : In st (re.run true _range_regex (re.MState 0 text [])))
    by (rewrite Hrun; now left).
  clear Hrun l. unfold _range_regex in Hin.
  apply run_Cat_inv in Hin. destruct Hin as (m1 & Hm1 & Hin).
  apply run_Cat_inv in Hin. destruct Hin as (m2 & Hm2 & Hin).
  apply run_Cat_inv in Hin. destruct Hin as (m3 & Hm3 & Hin).
  apply run_Cat_inv in Hin. destruct Hin as (m4 & Hm4 & Hin).
  apply run_Lit_inv in Hm1, Hm3, Hin.
  destruct (run_Group_inv true 1 range_side m1 m2 Hm2 side_text
              (run_range_side_inv m1)) as (A & HA & HrA & HpA & HgA).
  destruct (run_Group_inv true 2 range_side m3 m4 Hm4 side_text
              (run_range_side_inv m3)) as (B & HB & HrB & HpB & HgB).
  destruct Hm1 as (Hr1 & _ & Hg1). destruct Hm3 as (Hr3 & _ & Hg3).
  destruct Hin as (Hr5 & _ & Hg5).
  exists A, B, (re.rest st). repeat split; auto.
  - cbn in Hr1, Hr3, Hr5. cbn [re.rest] in Hr1.
    now rewrite Hr1, HrA, Hr3, HrB, Hr5.
  - rewrite Hg5, HgB, Hg3, HgA, Hg1. reflexivity.
Qed.

(** What [_unicode_form_regex] matches is an escape, with or without a
    final newline, and its group is the digits. *)
Lemma unicode_form_inv (text : pystr) (rm : re.matchobj) :
  re.match_ false _unicode_form_regex text = Some rm ->
  exists p ds,
    shape (Escape p ds) /\
    (text = p :: 43 :: ds \/ text = p :: 43 :: ds ++ [10]) /\
    rm = [(1%nat, ds)].
Proof.
  unfold re.match_.
  destruct (re.run false _unicode_form_regex (re.MState 0 text []))
    as [| st l] eqn:Hrun; [discriminate |].
  intros [= <-].
  assert (Hin : In st (re.run false _unicode_form_regex (re.MState 0 text [])))
    by (rewrite Hrun; now left).
  clear Hrun l. unfold _unicode_form_regex in Hin.
  apply run_Cat_inv in Hin. destruct Hin as (m0 & Hm0 & Hin).
  apply run_Bol_inv in Hm0. subst m0.
  apply run_Cat_inv in Hin. destruct Hin as (m1 & Hm1 & Hin).
  apply run_Cat_inv in Hin. destruct Hin as (m2 & Hm2 & Hin).
  apply run_Cat_inv in Hin. destruct Hin as (m3 & Hm3 & Hin).
  apply run_u_or_U_inv in Hm1. destruct Hm1 as (p & Hp & Hr1 & _ & Hg1).
  apply run_Lit_inv in Hm2. destruct Hm2 as (Hr2 & _ & Hg2).
  destruct (run_Group_inv false 1 _ m2 m3 Hm3
              (fun ds => (length ds = 4%nat \/ length ds = 6%nat) /\
                         forallb is_hex ds = true))
    as (ds & (Hlen & Hhex) & Hr3 & _ & Hg3).
  { intros m Hm. apply run_escape_digits_inv in Hm.
    destruct Hm as (ds & Hlen & Hhex & Hs). eauto. }
  apply run_Eol_inv in Hin. destruct Hin as (-> & Hend).
  exists p, ds. split; [now apply escape_shape |]. split.
  - cbn [re.rest app] in Hr1. rewrite Hr1, Hr2, Hr3. cbn [app].
    destruct Hend as [-> | ->]; [left; now rewrite app_nil_r | now right].
  - rewrite Hg3, Hg2, Hg1. reflexivity.
Qed.

Lemma single_char_inv (text : pystr) (rm : re.matchobj) :
  re.match_ true _single_char_regex text = Some rm ->
  exists c, text = [c] \/ text = [c; 10].
Proof.
  destruct text as [| c [| d [| e tl]]]; unfold re.match_; cbn.
  - discriminate.
  - intros _. exists c. now left.
  - destruct (d =? 10) eqn:Hd; cbn; [| discriminate].
    apply N.eqb_eq in Hd. subst d. intros _. exists c. now right.
  - discriminate.
Qed.

Lemma unicode_form_escape_newline (p : N) (ds : pystr) :
  shape (Escape p ds) ->
  re.match_ false _unicode_form_regex (p :: 43 :: ds ++ [10]) =
  Some [(1%nat, ds)].
Proof.
  intros H. unfold re.match_.
  inversion H as [| ? ? ? ? ? Hp | ? ? ? ? ? ? ? Hp]; subst;
    destruct Hp as [-> | ->]; crunch; reflexivity.
Qed.

Lemma side_text_nonempty (s : pystr) :
  side_text s -> (1 <= length s)%nat.
Proof. intros (o & _ & ->). destruct o; cbn; lia. Qed.

Lemma shape_escape_length (p : N) (ds : pystr) :
  shape (Escape p ds) -> (4 <= length ds)%nat.
Proof. intros H. inversion H; cbn; lia. Qed.

Lemma range_operand_single (s : pystr) (m : pystr) :
  side_text s -> range_operand s = Ok m -> exists a, m = [a].
Proof.
  intros (o & Hs & ->) H. unfold range_operand in H.
  destruct o as [c | p ds]; cbn [operand_text] in H.
  - rewrite unicode_form_single in H. injection H as <-. eauto.
  - rewrite (unicode_form_escape p ds Hs) in H. cbn [re.group Nat.eqb] in H.
    destruct (chr (int16 ds)) as [c |]; cbn [bind] in H; [| discriminate H].
    injection H as <-. eauto.
Qed.

Section GuardFacts2.

Variable unicodedata_lookup : pystr -> option N.

Lemma Codepoint_init_Ok (s : pystr) (cp : AstNode) :
  Codepoint_init unicodedata_lookup s = Ok cp -> exists c, cp = Codepoint c.
Proof.
  unfold Codepoint_init. intros H.
  destruct s as [| c [| d s]];
    try (destruct (unicodedata_lookup _); [| discriminate H]);
    injection H as <-; eauto.
Qed.

Lemma parseGuard_guard_tree (text : pystr) (g : AstNode) :
  parseGuard unicodedata_lookup text = Ok (Some g) -> guard_tree g.
Proof.
  unfold parseGuard. intros H.
  destruct (re.match_ true _single_char_regex text) as [rm1 |].
  { apply bind_Ok in H. destruct H as (cp & Hcp & [= <-]).
    apply Codepoint_init_Ok in Hcp. destruct Hcp as (c & ->).
    left. now exists c. }
  destruct (re.match_ false _unicode_form_regex text) as [rm2 |].
  { apply bind_Ok in H. destruct H as (c & _ & H).
    cbn [Codepoint_init bind] in H. injection H as <-.
    left. now exists c. }
  destruct (re.match_ true _range_regex text) as [rm3 |] eqn:Hrange;
    [| discriminate H].
  apply range_match_inv in Hrange.
  destruct Hrange as (A & B & tl & HA & HB & _ & ->).
  cbn [re.group Nat.eqb] in H.
  apply bind_Ok in H. destruct H as (min & Hmin & H).
  apply bind_Ok in H. destruct H as (max & Hmax & H).
  apply (range_operand_single A min HA) in Hmin. destruct Hmin as (a & ->).
  apply (range_operand_single B max HB) in Hmax. destruct Hmax as (b & ->).
  rewrite pystr_leb_single in H.
  destruct (a <=? b) eqn:Hle; [| discriminate H].
  cbn [Codepoint_init bind] in H. injection H as <-.
  right. exists a, b. split; [now apply N.leb_le | reflexivity].
Qed.

Lemma parseGuard_None_matches (text : pystr) :
  parseGuard unicodedata_lookup text = Ok None <->
  re.match_ true _single_char_regex text = None /\
  re.match_ false _unicode_form_regex text = None /\
  re.match_ true _range_regex text = None.
Proof.
  unfold parseGuard. split.
  - intros H.
    destruct (re.match_ true _single_char_regex text) as [rm1 |].
    { destruct (Codepoint_init unicodedata_lookup text); discriminate H. }
    destruct (re.match_ false _unicode_form_regex text) as [rm2 |].
    { destruct (chr (int16 (re.group rm2 1))); discriminate H. }
    destruct (re.match_ true _range_regex text) as [rm3 |]; [| auto].
    destruct (range_operand (re.group rm3 1)) as [min |]; cbn [bind] in H;
      [| discriminate H].
    destruct (range_operand (re.group rm3 2)) as [max |]; cbn [bind] in H;
      [| discriminate H].
    destruct (pystr_leb min max); [| discriminate H].
    destruct (Codepoint_init unicodedata_lookup min); cbn [bind] in H;
      [| discriminate H].
    destruct (Codepoint_init unicodedata_lookup max); discriminate H.
  - intros (-> & -> & ->). reflexivity.
Qed.

Lemma guard_form_matches (text : pystr) :
  guard_form text <->
  re.match_ true _single_char_regex text <> None \/
  re.match_ false _unicode_form_regex text <> None \/
  re.match_ true _range_regex text <> None.
Proof.
  split.
  - intros [(c & [-> | ->]) | [(p & ds & Hs & [-> | ->]) |
                               (A & B & tl & (oA & HA & ->) &
                                (oB & HB & ->) & ->)]].
    + left. discriminate.
    + left. discriminate.
    + right. left. now rewrite (unicode_form_escape p ds Hs).
    + right. left. now rewrite (unicode_form_escape_newline p ds Hs).
    + right. right. now rewrite (range_match oA oB tl HA HB).
  - intros [H | [H | H]].
    + destruct (re.match_ true _single_char_regex text) as [rm |] eqn:Hm;
        [| contradiction].
      left. exact (single_char_inv text rm Hm).
    + destruct (re.match_ false _unicode_form_regex text) as [rm |] eqn:Hm;
        [| contradiction].
      right. left.
      destruct (unicode_form_inv text rm Hm) as (p & ds & Hs & Ht & _).
      eauto.
    + destruct (re.match_ true _range_regex text) as [rm |] eqn:Hm;
        [| contradiction].
      right. right.
      destruct (range_match_inv text rm Hm) as (A & B & tl & HA & HB & Ht & _).
      exists A, B, tl. auto.
Qed.

Lemma parseGuard_None_forms (text : pystr) :
  parseGuard unicodedata_lookup text = Ok None <-> ~ guard_form text.
Proof.
  rewrite parseGuard_None_matches, guard_form_matches. split.
  - intros (-> & -> & ->) [H | [H | H]]; now apply H.
  - intros H.
    destruct (re.match_ true _single_char_regex text);
      [exfalso; apply H; left; discriminate |].
    destruct (re.match_ false _unicode_form_regex text);
      [exfalso; apply H; right; left; discriminate |].
    destruct (re.match_ true _range_regex text);
      [exfalso; apply H; right; right; discriminate | auto].
Qed.

End GuardFacts2.

(** X14: every predicate [parseGuard] returns is the test of one code
    point, [EQ(Candidate, Codepoint(c))], or the test of a range that is not
    empty, [AND(GTE(Candidate, Codepoint(a)), LTE(Candidate, Codepoint(b)))]
    with [a <= b]; so it is a [Guard], which the [condition] setter of [If]
    accepts. *)
Theorem parseGuard_returns_guard_tree
    (unicodedata_lookup : pystr -> option N) (text : pystr) (g : AstNode) :
  parseGuard unicodedata_lookup text = Ok (Some g) ->
  guard_tree g /\ If_set_condition (Some g) = Ok g.
Proof.
  intros H. apply parseGuard_guard_tree in H. split; [exact H |].
  destruct H as [(c & ->) | (a & b & _ & ->)]; reflexivity.
Qed.

(** X15: [parseGuard] returns [None] exactly for the texts that are not
    one character or an escape, each with or without a final newline, and do
    not start with a range. *)
Theorem parseGuard_None_iff (unicodedata_lookup : pystr -> option N)
    (text : pystr) :
  parseGuard unicodedata_lookup text = Ok None <-> ~ guard_form text.
Proof. apply parseGuard_None_forms. Qed.

(** X16: the empty text, and every text of two to four characters other
    than a character followed by a newline, is no guard: [parseGuard] returns
    [None]. *)
Theorem parseGuard_short_text (unicodedata_lookup : pystr -> option N)
    (text : pystr) :
  length text = 0%nat \/ (2 <= length text <= 4)%nat ->
  (forall c, text <> [c; 10]) ->
  parseGuard unicodedata_lookup text = Ok None.
Proof.
  intros Hlen Hnl. apply parseGuard_None_forms.
  intros [(c & [-> | ->]) | [(p & ds & Hs & Ht) |
                             (A & B & tl & HA & HB & ->)]].
  - cbn in Hlen. lia.
  - now apply (Hnl c).
  - apply shape_escape_length in Hs.
    destruct Ht as [-> | ->]; cbn [length] in Hlen;
      rewrite ?length_app in Hlen; cbn [length] in Hlen; lia.
  - apply side_text_nonempty in HA, HB.
    cbn [length] in Hlen. rewrite length_app in Hlen. cbn [length] in Hlen.
    rewrite length_app in Hlen. cbn [length] in Hlen. lia.
Qed.

(** X17: an escape of six hexadecimal digits whose value is past the last
    code point, [0x10FFFF], makes [parseGuard] raise the [ValueError] of
    [chr]. *)
Theorem parseGuard_escape_out_of_range
    (unicodedata_lookup : pystr -> option N) (p : N) (ds : pystr) :
  p = 117 \/ p = 85 ->
  length ds = 6%nat ->
  forallb is_hex ds = true ->
  0x110000 <= int16 ds ->
  parseGuard unicodedata_lookup (p :: 43 :: ds) = Raise ValueError.
Proof.
  intros Hp Hlen Hhex Hbig.
  assert (Hs : shape (Escape p ds)) by (apply escape_shape; auto).
  unfold parseGuard.
  assert (Hlong : exists x y z rest, ds = x :: y :: z :: rest)
    by (inversion Hs; eauto).
  destruct Hlong as (x & y & z & rest & ->).
  rewrite single_char_long, (unicode_form_escape _ _ Hs).
  cbn [re.group Nat.eqb]. unfold chr.
  apply N.ltb_ge in Hbig. now rewrite Hbig.
Qed.

Lemma parseGuard_returns_guard_tree_witness :
  parseGuard unicodedata_excerpt (py "(U+0041-z)") =
  Ok (Some (range_predicate 65 122)) /\
  guard_tree (range_predicate 65 122) /\
  If_set_condition (Some (range_predicate 65 122)) =
  Ok (range_predicate 65 122).
Proof.
  assert (H : parseGuard unicodedata_excerpt (py "(U+0041-z)") =
              Ok (Some (range_predicate 65 122)))
    by (vm_compute; reflexivity).
  split; [exact H |].
  exact (parseGuard_returns_guard_tree unicodedata_excerpt (py "(U+0041-z)")
           (range_predicate 65 122) H).
Defined.

Lemma parseGuard_short_text_witness :
  (length (py "(a-") = 0%nat \/ (2 <= length (py "(a-") <= 4)%nat) /\
  (forall c, py "(a-" <> [c; 10]) /\
  parseGuard unicodedata_excerpt (py "(a-") = Ok None.
Proof.
  assert (Hlen : length (py "(a-") = 0%nat \/
                 (2 <= length (py "(a-") <= 4)%nat)
    by (right; cbn; lia).
  assert (Hnl : forall c, py "(a-" <> [c; 10]) by (intros c H; discriminate H).
  split; [exact Hlen | split; [exact Hnl |]].
  exact (parseGuard_short_text unicodedata_excerpt (py "(a-") Hlen Hnl).
Defined.

Lemma parseGuard_escape_out_of_range_witness :
  (85 = 117 \/ 85 = 85) /\
  length (py "110000") = 6%nat /\
  forallb is_hex (py "110000") = true /\
  0x110000 <= int16 (py "110000") /\
  parseGuard unicodedata_excerpt (py "U+110000") = Raise ValueError.
Proof.
  assert (Hbig : 0x110000 <= int16 (py "110000"))
    by (intros H; discriminate H).
  split; [now right | split; [reflexivity | split; [reflexivity |]]].
  split; [exact Hbig |].
  exact (parseGuard_escape_out_of_range unicodedata_excerpt 85 (py "110000")
           (or_intror eq_refl) eq_refl eq_refl Hbig).
Defined.

(** ** The constructor, continued *)

Lemma chain_rule_chain (frames : list (AstNode * AstNode)) (last : AstNode) :
  Forall (fun fr => guard_tree (fst fr) /\ emitter_tree (snd fr)) frames ->
  emitter_tree last \/ last = Nop ->
  rule_chain (length frames) (chain frames (If (Bool true) last Nop)).
Proof.
  intros Hf Hlast. induction Hf as [| [g e] frames [Hg He] _ IH]; cbn.
  - now constructor.
  - now constructor.
Qed.

Section ConstructorFacts.

Variable unicodedata_lookup : pystr -> option N.
Variable doc : document.
Variable userdefined : list pystr.

Lemma build_step_frame (depth : nat) (above : list (AstNode * AstNode))
    (cur : AstNode * AstNode * AstNode) (rule : json) (cur' : cursor) :
  build_step unicodedata_lookup depth doc userdefined (above, cur) rule
  = Ok cur' ->
  exists g e,
    cur' = ((g, e) :: above, If_default) /\ guard_tree g /\ emitter_tree e.
Proof.
  unfold build_step. destruct cur as [[c t] f]. intros H.
  apply bind_Ok in H. destruct H as (r & Hr & H).
  destruct r as [[og e] |]; [| discriminate H].
  apply bind_Ok in H. destruct H as (cond & Hcond & [= <-]).
  unfold parseRule in Hr.
  destruct rule as [| | | | | [| [guard emitter] items]]; try discriminate Hr.
  apply bind_Ok in Hr. destruct Hr as (og' & Hg & Hr).
  apply bind_Ok in Hr. destruct Hr as (e' & He & [= -> ->]).
  unfold If_set_condition in Hcond.
  destruct og as [g |]; [| discriminate Hcond].
  destruct (is_Guard g); [| discriminate Hcond]. injection Hcond as <-.
  exists g, e. split; [reflexivity |]. split.
  - exact (parseGuard_guard_tree unicodedata_lookup guard g Hg).
  - exact (parseEmitter_at_tree doc userdefined depth emitter e He).
Qed.

Lemma build_loop_frames (depth : nat) (rules : list json) :
  forall above cur',
    build_loop unicodedata_lookup depth doc userdefined (above, If_default)
               rules = Ok cur' ->
    exists frames,
      length frames = length rules /\
      Forall (fun fr => guard_tree (fst fr) /\ emitter_tree (snd fr)) frames /\
      cur' = (rev frames ++ above, If_default).
Proof.
  induction rules as [| rule rules IH]; intros above cur' H;
    cbn [build_loop] in H.
  - injection H as <-. exists []. repeat split. constructor.
  - apply bind_Ok in H. destruct H as (cur1 & Hstep & H).
    apply build_step_frame in Hstep.
    destruct Hstep as (g & e & -> & Hg & He).
    destruct (IH _ _ H) as (frames & Hlen & Hall & ->).
    exists ((g, e) :: frames). cbn [length rev]. rewrite Hlen.
    split; [reflexivity |]. split; [constructor; auto |].
    now rewrite <- app_assoc.
Qed.

Lemma build_ast_rule_chain (depth : nat) (rules default_emitter : json)
    (root : AstNode) :
  build_ast unicodedata_lookup depth doc userdefined rules default_emitter
  = Ok root ->
  exists rs, py_iter rules = Ok rs /\ rule_chain (length rs) root.
Proof.
  unfold build_ast. intros H.
  apply bind_Ok in H. destruct H as (rs & Hrs & H).
  exists rs. split; [exact Hrs |].
  apply bind_Ok in H. destruct H as (cur & Hloop & H).
  apply build_loop_frames in Hloop.
  destruct Hloop as (frames & Hlen & Hall & ->).
  cbn [If_default] in H. rewrite app_nil_r in H. rewrite <- Hlen.
  destruct (truthy default_emitter).
  - apply bind_Ok in H. destruct H as (d & Hd & [= <-]).
    pose proof (fold_frames_chain frames (If (Bool true) d Nop)) as Hc.
    unfold frame in Hc. unfold plug. rewrite Hc.
    apply chain_rule_chain; [exact Hall |].
    left. exact (parseEmitter_at_tree doc userdefined depth _ d Hd).
  - injection H as <-.
    pose proof (fold_frames_chain frames (If (Bool true) Nop Nop)) as Hc.
    unfold frame in Hc. unfold plug. rewrite Hc.
    apply chain_rule_chain; [exact Hall | now right].
Qed.

Lemma build_step_deeper (d d' : nat) (cur : cursor) (rule : json)
    (cur' : cursor) :
  (d <= d')%nat ->
  build_step unicodedata_lookup d doc userdefined cur rule = Ok cur' ->
  build_step unicodedata_lookup d' doc userdefined cur rule = Ok cur'.
Proof.
  intros Hle. unfold build_step. destruct cur as [above [[c t] f]].
  unfold parseRule.
  destruct rule as [| | | | | [| [guard emitter] items]];
    try (intros H; exact H).
  destruct (parseGuard unicodedata_lookup guard) as [og |]; cbn [bind];
    [| intros H; exact H].
  unfold parseEmitter.
  destruct (parseEmitter_at doc userdefined d emitter) as [e |] eqn:He;
    cbn [bind]; [| discriminate].
  rewrite (parseEmitter_at_le doc userdefined d d' emitter (Ok e) Hle He)
    by discriminate.
  intros H. exact H.
Qed.

Lemma build_loop_deeper (d d' : nat) (rules : list json) :
  (d <= d')%nat ->
  forall cur cur',
    build_loop unicodedata_lookup d doc userdefined cur rules = Ok cur' ->
    build_loop unicodedata_lookup d' doc userdefined cur rules = Ok cur'.
Proof.
  intros Hle. induction rules as [| rule rules IH]; intros cur cur' H;
    cbn [build_loop] in *; [exact H |].
  apply bind_Ok in H. destruct H as (cur1 & Hstep & H).
  rewrite (build_step_deeper d d' cur rule cur1 Hle Hstep). cbn [bind].
  now apply IH.
Qed.

Lemma build_ast_deeper (d d' : nat) (rules default_emitter : json)
    (root : AstNode) :
  (d <= d')%nat ->
  build_ast unicodedata_lookup d doc userdefined rules default_emitter
  = Ok root ->
  build_ast unicodedata_lookup d' doc userdefined rules default_emitter
  = Ok root.
Proof.
  intros Hle. unfold build_ast. intros H.
  apply bind_Ok in H. destruct H as (rs & -> & H). cbn [bind].
  apply bind_Ok in H. destruct H as (cur & Hloop & H).
  rewrite (build_loop_deeper d d' rs Hle _ cur Hloop). cbn [bind].
  destruct cur as [above [[c t] f]].
  destruct (truthy default_emitter); [| exact H].
  unfold parseEmitter in *.
  destruct (parseEmitter_at doc userdefined d default_emitter) as [e |] eqn:He;
    cbn [bind] in H; [| discriminate H].
  rewrite (parseEmitter_at_le doc userdefined d d' _ (Ok e) Hle He)
    by discriminate.
  exact H.
Qed.

End ConstructorFacts.

(** X18: the tree of every codec the constructor returns is a rule chain
    with one [If] per element of [RULES]: each condition is a predicate
    [parseGuard] can return, each true-branch an emitter tree, each
    false-branch the next [If], and the last [If] has the condition [true],
    an emitter tree or [Nop] as true-branch and [Nop] as false-branch. *)
Theorem Codec_ast_is_wellformed (unicodedata_lookup : pystr -> option N)
    (depth : nat) (doc : document) (c : Codec) :
  Codec_init unicodedata_lookup depth doc = Ok c ->
  exists rules,
    dict_get doc (py "RULES") = Some (_rules c) /\
    py_iter (_rules c) = Ok rules /\
    rule_chain (length rules) (ast c).
Proof.
  unfold Codec_init. intros H.
  destruct (dict_get doc (py "RULES")) as [rules |]; [| discriminate H].
  destruct (dict_get doc (py "TARGET")) as [t |]; [| discriminate H].
  apply bind_Ok in H. destruct H as (root & Hroot & [= <-]).
  apply build_ast_rule_chain in Hroot. destruct Hroot as (rs & Hrs & Hch).
  exists rs. cbn [_rules ast _root]. auto.
Qed.

(** X19: a codec that the constructor returns on a stack of some depth is
    what it returns on every deeper stack. *)
Theorem Codec_init_deeper_stack (unicodedata_lookup : pystr -> option N)
    (d d' : nat) (doc : document) (c : Codec) :
  (d <= d')%nat ->
  Codec_init unicodedata_lookup d doc = Ok c ->
  Codec_init unicodedata_lookup d' doc = Ok c.
Proof.
  intros Hle. unfold Codec_init. intros H.
  destruct (dict_get doc (py "RULES")) as [rules |]; [| discriminate H].
  destruct (dict_get doc (py "TARGET")) as [t |]; [| discriminate H].
  apply bind_Ok in H. destruct H as (root & Hroot & H).
  rewrite (build_ast_deeper unicodedata_lookup doc _ d d' rules _ root
             Hle Hroot).
  exact H.
Qed.

(** X20: when the keys of the document are distinct and none is the name
    of a builtin, the emitters of the codec are distinct names, and none of
    them is [TARGET], [RULES] or [DEFAULT-EMITTER]. *)
Theorem emitters_are_distinct (unicodedata_lookup : pystr -> option N)
    (depth : nat) (doc : document) (c : Codec) :
  Codec_init unicodedata_lookup depth doc = Ok c ->
  NoDup (dict_keys doc) ->
  (forall b, In b _builtin_emitters -> dict_get doc b = None) ->
  NoDup (emitters c) /\
  forall k, In k _keywords -> ~ In k (emitters c).
Proof.
  unfold Codec_init. intros H Hnd Hnb.
  destruct (dict_get doc (py "RULES")) as [rules |]; [| discriminate H].
  destruct (dict_get doc (py "TARGET")) as [t |]; [| discriminate H].
  apply bind_Ok in H. destruct H as (root & _ & [= <-]).
  unfold emitters. cbn [_userdefined_emitters].
  split.
  - apply NoDup_app.
    + repeat constructor; cbn; intuition discriminate.
    + unfold userdefined_emitters_of. now apply NoDup_filter.
    + intros b Hb Hud. apply userdefined_emitters_iff in Hud.
      destruct Hud as [Hkey _]. apply dict_get_In_keys in Hkey.
      apply Hkey. now apply Hnb.
  - intros k Hk Hin. apply in_app_or in Hin. destruct Hin as [Hin | Hin].
    + cbn in Hk, Hin. intuition (subst; discriminate).
    + apply userdefined_emitters_iff in Hin. now destruct Hin.
Qed.

Lemma Codec_ast_is_wellformed_witness :
  Codec_init unicodedata_excerpt 1000 html_document = Ok html_codec /\
  exists rules,
    dict_get html_document (py "RULES") = Some (_rules html_codec) /\
    py_iter (_rules html_codec) = Ok rules /\
    rule_chain (length rules) (ast html_codec).
Proof.
  assert (H : Codec_init unicodedata_excerpt 1000 html_document = Ok html_codec)
    by (vm_compute; reflexivity).
  split; [exact H |].
  exact (Codec_ast_is_wellformed unicodedata_excerpt 1000 html_document
           html_codec H).
Defined.

Lemma Codec_init_deeper_stack_witness :
  (5 <= 1000)%nat /\
  Codec_init unicodedata_excerpt 5 html_document = Ok html_codec /\
  Codec_init unicodedata_excerpt 1000 html_document = Ok html_codec.
Proof.
  assert (Hle : (5 <= 1000)%nat) by (apply Nat.leb_le; reflexivity).
  assert (H : Codec_init unicodedata_excerpt 5 html_document = Ok html_codec)
    by (vm_compute; reflexivity).
  split; [exact Hle | split; [exact H |]].
  exact (Codec_init_deeper_stack unicodedata_excerpt 5 1000 html_document
           html_codec Hle H).
Defined.

Lemma emitters_are_distinct_witness :
  Codec_init unicodedata_excerpt 1000 nested_document = Ok nested_codec /\
  NoDup (dict_keys nested_document) /\
  (forall b, In b _builtin_emitters -> dict_get nested_document b = None) /\
  NoDup (emitters nested_codec) /\
  forall k, In k _keywords -> ~ In k (emitters nested_codec).
Proof.
  assert (H : Codec_init unicodedata_excerpt 1000 nested_document
              = Ok nested_codec) by (vm_compute; reflexivity).
  assert (Hnd : NoDup (dict_keys nested_document))
    by (repeat constructor; cbn; intuition discriminate).
  assert (Hnb : forall b, In b _builtin_emitters ->
                          dict_get nested_document b = None)
    by (intros b [<- | [<- | [<- | [<- | []]]]]; reflexivity).
  split; [exact H | split; [exact Hnd | split; [exact Hnb |]]].
  exact (emitters_are_distinct unicodedata_excerpt 1000 nested_document
           nested_codec H Hnd Hnb).
Defined.

(** ** Guards, continued *)

(** X21: a range whose sides are literal characters or escapes that name
    code points, the left one past the right one, fails the assertion of
    [parseGuard], whatever follows the closing parenthesis. *)
Theorem parseGuard_reversed_range_fails
    (unicodedata_lookup : pystr -> option N) (A B : operand) (tl : pystr) :
  operand_ok A = true -> operand_ok B = true ->
  operand_ord B < operand_ord A ->
  parseGuard unicodedata_lookup (range_text A B ++ tl) = Raise AssertionError.
Proof.
  intros HA HB Hlt.
  assert (Htext : range_text A B ++ tl =
                  40 :: operand_text A ++ 45 :: operand_text B ++ 41 :: tl).
  { unfold range_text. cbn [app]. rewrite <- app_assoc. cbn [app].
    now rewrite <- app_assoc. }
  rewrite Htext, (parseGuard_range_then unicodedata_lookup A B tl HA HB).
  apply N.leb_gt in Hlt. now rewrite Hlt.
Qed.

Lemma parseGuard_reversed_range_fails_witness :
  operand_ok (Literal 122) = true /\
  operand_ok (Escape 85 (py "0061")) = true /\
  operand_ord (Escape 85 (py "0061")) < operand_ord (Literal 122) /\
  parseGuard unicodedata_excerpt (py "(z-U+0061)") = Raise AssertionError.
Proof.
  assert (Hlt : operand_ord (Escape 85 (py "0061")) < operand_ord (Literal 122))
    by reflexivity.
  split; [reflexivity | split; [reflexivity | split; [exact Hlt |]]].
  exact (parseGuard_reversed_range_fails unicodedata_excerpt (Literal 122)
           (Escape 85 (py "0061")) [] eq_refl eq_refl Hlt).
Defined.

(** X22: two escapes that name the same code point parse to the same
    predicate, whatever the letter [u] or [U], the case of the digits and
    their number, four or six. *)
Theorem parseGuard_escapes_of_one_value
    (unicodedata_lookup : pystr -> option N) (p p' : N) (ds ds' : pystr) :
  operand_ok (Escape p ds) = true ->
  operand_ok (Escape p' ds') = true ->
  int16 ds = int16 ds' ->
  parseGuard unicodedata_lookup (p :: 43 :: ds) =
  parseGuard unicodedata_lookup (p' :: 43 :: ds') /\
  parseGuard unicodedata_lookup (p :: 43 :: ds) =
  Ok (Some (eq_predicate (int16 ds))).
Proof.
  intros Hok Hok' Heq.
  assert (Hlt : forall q es, operand_ok (Escape q es) = true ->
                             int16 es < 0x110000).
  { intros q es H. unfold operand_ok in H. rewrite !andb_true_iff in H.
    now apply N.ltb_lt. }
  rewrite (parseGuard_escape unicodedata_lookup p ds
             (operand_ok_shape _ Hok) (Hlt _ _ Hok)).
  rewrite (parseGuard_escape unicodedata_lookup p' ds'
             (operand_ok_shape _ Hok') (Hlt _ _ Hok')).
  now rewrite Heq.
Qed.

Lemma parseGuard_escapes_of_one_value_witness :
  operand_ok (Escape 85 (py "00E9")) = true /\
  operand_ok (Escape 117 (py "0000e9")) = true /\
  int16 (py "00E9") = int16 (py "0000e9") /\
  parseGuard unicodedata_excerpt (py "U+00E9") =
  parseGuard unicodedata_excerpt (py "u+0000e9") /\
  parseGuard unicodedata_excerpt (py "U+00E9") = Ok (Some (eq_predicate 233)).
Proof.
  split; [reflexivity | split; [reflexivity | split; [reflexivity |]]].
  exact (parseGuard_escapes_of_one_value unicodedata_excerpt 85 117
           (py "00E9") (py "0000e9") eq_refl eq_refl eq_refl).
Defined.

(** X23: of a rule, the constructor reads the first item only: further
    items of the mapping, whatever they are, change nothing of the tree or
    of the exception. *)
Theorem build_ast_reads_first_item
    (unicodedata_lookup : pystr -> option N) (depth : nat) (doc : document)
    (userdefined : list pystr) (rules : list (list (pystr * json)))
    (default_emitter : json) :
  build_ast unicodedata_lookup depth doc userdefined
            (JList (map JDict rules)) default_emitter =
  build_ast unicodedata_lookup depth doc userdefined
            (JList (map (fun items => JDict (firstn 1 items)) rules))
            default_emitter.
Proof.
  unfold build_ast. cbn [py_iter bind].
  assert (Hloop : forall cur,
             build_loop unicodedata_lookup depth doc userdefined cur
                        (map JDict rules) =
             build_loop unicodedata_lookup depth doc userdefined cur
                        (map (fun items => JDict (firstn 1 items)) rules)).
  { induction rules as [| items rules IH]; intros cur; [reflexivity |].
    cbn [map build_loop].
    assert (Hstep : build_step unicodedata_lookup depth doc userdefined cur
                               (JDict items) =
                    build_step unicodedata_lookup depth doc userdefined cur
                               (JDict (firstn 1 items)))
      by (destruct items as [| [g e] items]; reflexivity).
    rewrite Hstep.
    destruct (build_step unicodedata_lookup depth doc userdefined cur
                         (JDict (firstn 1 items))); cbn [bind];
      [apply IH | reflexivity]. }
  now rewrite Hloop.
Qed.
